(** * The trajectory core of baseballgui: model and properties

    The package [trajectory] integrates the motion of a sphere through the
    lower atmosphere with a fourth-order Runge-Kutta step, and the programs
    around it animate a projectile and test it against a target rectangle.

    Every number in the Go source is a [float64].  The functions below are
    written once, over an interface [Num] of the arithmetic the source uses,
    and read at two instances:
    - [Float64.num]: IEEE 754 binary64 (Rocq's primitive floats), the
      program as it runs;
    - [Real.num]: the real numbers, the program in exact arithmetic.
    The transcendental functions of Go's [math] package ([Pow], [Exp], [Cos],
    [Sin]) are not part of the repository: they are the fields of a record
    [MathLib] every function takes. *)

From Stdlib Require Import ZArith QArith Reals Lra Lia List Bool Floats.
From Stdlib Require Import Sorted Permutation.
Import ListNotations.

Set Implicit Arguments.

(** ** The arithmetic of the source *)

Declare Scope num_scope.
Delimit Scope num_scope with num.

(** [lit q] is the decimal literal [q] of the source; [gtb x y] is Go's
    [x > y], [geb x y] is [x >= y] and [eqb x y] is [x == y].  [fmax] and
    [fmin] are [math.Max] and [math.Min], [sqrt] is [math.Sqrt] and [Pi] is
    [math.Pi]. *)
Class Num (F : Type) : Type := {
  add : F -> F -> F;
  sub : F -> F -> F;
  mul : F -> F -> F;
  div : F -> F -> F;
  opp : F -> F;
  sqrt : F -> F;
  ltb : F -> F -> bool;
  leb : F -> F -> bool;
  eqb : F -> F -> bool;
  fmax : F -> F -> F;
  fmin : F -> F -> F;
  lit : Q -> F;
  Pi : F
}.

Arguments lit {F _} _%_Q.

Infix "+" := add : num_scope.
Infix "-" := sub : num_scope.
Infix "*" := mul : num_scope.
Infix "/" := div : num_scope.
Notation "- x" := (opp x) : num_scope.
Infix "<?" := ltb : num_scope.
Infix "<=?" := leb : num_scope.
Infix "==?" := eqb (at level 70) : num_scope.

Definition gtb {F} `{Num F} (x y : F) : bool := ltb y x.
Definition geb {F} `{Num F} (x y : F) : bool := leb y x.
Infix ">?" := gtb : num_scope.
Infix ">=?" := geb : num_scope.

(** Go's [math] functions the package calls and the repository does not
    define. *)
Record MathLib (F : Type) : Type := {
  Pow : F -> F -> F;
  Exp : F -> F;
  Cos : F -> F;
  Sin : F -> F
}.

(** What a call leaves behind: a value, a run-time panic (an index out of
    range), or a loop that used up the steps it was given. *)
Inductive outcome (A : Type) : Type :=
| Returned (a : A)
| Panicked
| OutOfFuel.

Arguments Returned {A} a.
Arguments Panicked {A}.
Arguments OutOfFuel {A}.

(** ** Package trajectory (src/trajectory/trajectory.go) *)

Module trajectory.
Section Generic.
Context {F : Type} {N : Num F}.
Variable M : MathLib F.
Local Open Scope num_scope.

(** A [[2]float64] is a pair: index 0 is [fst], index 1 is [snd]. *)
Definition vec2 : Type := (F * F)%type.

Record TrajectoryPoint : Type := {
  Time : F;
  Position : vec2;
  Velocity : vec2;
  Acceleration : vec2
}.

(** Package conversion factor constants. *)
Definition ft2meters : F := lit 0.3048.
Definition g : F := lit 9.8066.
Definition lbs2kg : F := lit 0.45359237.
Definition rhozero : F := lit 1.2250.

(** British cannonballs in SI units.  [4.95 / 12] is a constant expression:
    Go evaluates it exactly (33/80) before rounding it once.  So is
    [0.25 * math.Pi]; a quarter of the rounded [Pi] is the same number. *)
Definition diam : F := lit (33 # 80) * ft2meters.
Definition mass : F := lit 5.4.
Definition sref : F := lit 0.25 * Pi * diam * diam.

(** cdSphere: drag coefficient of a sphere as a function of Reynolds
    number. *)
Definition cdSphere (r : F) : F :=
  if r <=? lit 0 then lit 0
  else if r <=? lit 1.0 then lit 24.0 / r
  else if r <=? lit 400.0 then lit 24 * Pow M r (lit (-0.646))
  else if r <=? lit 3E5 then lit 0.5
  else if r <=? lit 2E6 then lit 3.66E-4 * Pow M r (lit 0.4275)
  else lit 0.18.

(** viscosity: Sutherland's formula. *)
Definition viscosity (theta : F) : F :=
  let betavisc := lit 1.458E-6 in
  let suth := lit 110.4 in
  let tzero := lit 288.15 in
  let temp := tzero * theta in
  betavisc * sqrt (temp * temp * temp) / (temp + suth).

(** simpleAtmosphere: (sigma, delta, theta) at a geometric altitude in
    kilometres.  [-6.5/288.15] and [216.65/288.15] are constant
    expressions, rounded once. *)
Definition simpleAtmosphere (alt : F) : F * F * F :=
  let rearth := lit 6369.0 in
  let gmr := lit 34.163195 in
  let h := alt * rearth / (alt + rearth) in
  let '(theta, delta) :=
    if h <? lit 11.0 then
      let theta := lit 1.0 + lit (-650 # 28815) * h in
      (theta, Pow M theta (gmr / lit 6.5))
    else
      (lit (21665 # 28815),
       lit 0.2233611 * Exp M (- gmr * (h - lit 11.0) / lit 216.65)) in
  (delta / theta, delta, theta).

(** accel: acceleration of the sphere; [time] is not used. *)
Definition accel (time : F) (position velocity : vec2) : vec2 :=
  let vertical := (lit 0.0, lit 1.0) in
  let vsq := lit 0.0 in
  let vsq := vsq + Pow M (fst velocity) (lit 2.0) in
  let vsq := vsq + Pow M (snd velocity) (lit 2.0) in
  let vmag := sqrt vsq in
  let unitVelocity := (fst velocity / vmag, snd velocity / vmag) in
  let '(sigma, _, theta) := simpleAtmosphere (lit 0.001 * snd position) in
  let density := sigma * rhozero in
  let q := lit 0.5 * density * vsq in
  let reynolds := density * vmag * diam / viscosity theta in
  let cd := cdSphere reynolds in
  let dragMagnitude := cd * q * sref in
  let drag := (- dragMagnitude * fst unitVelocity,
               - dragMagnitude * snd unitVelocity) in
  (fst drag / mass - g * fst vertical, snd drag / mass - g * snd vertical).

(** correctFinalPosition: the point between [a1] and [a2] whose altitude
    is [initialAltitude]. *)
Definition correctFinalPosition (initialAltitude : F)
    (a1 a2 : TrajectoryPoint) : TrajectoryPoint :=
  let fraction :=
    (initialAltitude - snd (Position a1)) /
    (snd (Position a2) - snd (Position a1)) in
  let interp (u v : F) := u + fraction * (v - u) in
  {| Time := interp (Time a1) (Time a2);
     Position := (interp (fst (Position a1)) (fst (Position a2)),
                  interp (snd (Position a1)) (snd (Position a2)));
     Velocity := (interp (fst (Velocity a1)) (fst (Velocity a2)),
                  interp (snd (Velocity a1)) (snd (Velocity a2)));
     Acceleration :=
       (interp (fst (Acceleration a1)) (fst (Acceleration a2)),
        interp (snd (Acceleration a1)) (snd (Acceleration a2))) |}.

(** baseballKutta: one fourth-order Runge-Kutta step of length [h]. *)
Definition baseballKutta (p1 : TrajectoryPoint) (h : F) : TrajectoryPoint :=
  (* start of interval *)
  let t := Time p1 in
  let x := Position p1 in
  let v := Velocity p1 in
  let a := accel t x v in
  let dx1 := (h * fst v, h * snd v) in
  let dv1 := (h * fst a, h * snd a) in
  (* midpoint of interval w/ slopes dx1/dv1 *)
  let x2 := (fst x + fst dx1 / lit 2.0, snd x + snd dx1 / lit 2.0) in
  let v2 := (fst v + fst dv1 / lit 2.0, snd v + snd dv1 / lit 2.0) in
  let a := accel (t + h / lit 2.0) x2 v2 in
  let dx2 := (h * (fst v + fst dv1 / lit 2.0),
              h * (snd v + snd dv1 / lit 2.0)) in
  let dv2 := (h * fst a, h * snd a) in
  (* midpoint of interval w/ slopes dx2/dv2 *)
  let x3 := (fst x + fst dx2 / lit 2.0, snd x + snd dx2 / lit 2.0) in
  let v3 := (fst v + fst dv2 / lit 2.0, snd v + snd dv2 / lit 2.0) in
  let a := accel (t + h / lit 2.0) x3 v3 in
  let dx3 := (h * (fst v + fst dv2 / lit 2.0),
              h * (snd v + snd dv2 / lit 2.0)) in
  let dv3 := (h * fst a, h * snd a) in
  (* endpoint of interval *)
  let x4 := (fst x + fst dx3, snd x + snd dx3) in
  let v4 := (fst v + fst dv3, snd v + snd dv3) in
  let a := accel (t + h) x4 v4 in
  let dx4 := (h * (fst v + fst dv3), h * (snd v + snd dv3)) in
  let dv4 := (h * fst a, h * snd a) in
  let p2Time := t + h in
  let comb (y k1 k2 k3 k4 : F) :=
    y + (k1 + k2 + k2 + k3 + k3 + k4) / lit 6.0 in
  let p2Position :=
    (comb (fst (Position p1)) (fst dx1) (fst dx2) (fst dx3) (fst dx4),
     comb (snd (Position p1)) (snd dx1) (snd dx2) (snd dx3) (snd dx4)) in
  let p2Velocity :=
    (comb (fst (Velocity p1)) (fst dv1) (fst dv2) (fst dv3) (fst dv4),
     comb (snd (Velocity p1)) (snd dv1) (snd dv2) (snd dv3) (snd dv4)) in
  {| Time := p2Time;
     Position := p2Position;
     Velocity := p2Velocity;
     Acceleration := accel p2Time p2Position p2Velocity |}.

(** The first point of a run: [Trajectory] and [fireProjectile] build it
    with the same expressions. *)
Definition initialTrajectory (initialAltitude initialVelocity initialTheta : F)
    : TrajectoryPoint :=
  let t := lit 0.0 in
  let position := (lit 0.0, initialAltitude) in
  let velocity :=
    (initialVelocity * Cos M (initialTheta * Pi / lit 180.0),
     initialVelocity * Sin M (initialTheta * Pi / lit 180.0)) in
  let acceleration := accel t position velocity in
  {| Time := t; Position := position; Velocity := velocity;
     Acceleration := acceleration |}.

(** The loop [for ok := true; ok; ok = cond { ... }] of [Trajectory]: the
    body runs, then [cond] decides whether it runs again.  The source has
    no bound on the number of rounds; [fuel] is the number of rounds this
    model may take. *)
Fixpoint rkLoop (fuel : nat) (initialAltitude dt : F)
    (history : list TrajectoryPoint) (k : nat)
    : outcome (list TrajectoryPoint) :=
  match fuel with
  | O => OutOfFuel
  | S fuel' =>
      match nth_error history k with
      | None => Panicked
      | Some hk =>
          let newTrajectory := baseballKutta hk dt in
          let k := S k in
          let history := history ++ [newTrajectory] in
          let cond := snd (Position newTrajectory) >? initialAltitude in
          if cond then rkLoop fuel' initialAltitude dt history k
          else Returned history
      end
  end.

(** [p] with [p.Position[1]] replaced by [p.Position[1] - base]. *)
Definition rebase (base : F) (p : TrajectoryPoint) : TrajectoryPoint :=
  {| Time := Time p;
     Position := (fst (Position p), snd (Position p) - base);
     Velocity := Velocity p;
     Acceleration := Acceleration p |}.

(** [history[i].Position[1] = history[i].Position[1] - history[0].Position[1]],
    on the slice as it is when the assignment runs. *)
Definition rebaseAt (i : nat) (history : list TrajectoryPoint)
    : outcome (list TrajectoryPoint) :=
  match nth_error history i, nth_error history 0 with
  | Some hi, Some h0 =>
      Returned (firstn i history
                ++ rebase (snd (Position h0)) hi :: skipn (S i) history)
  | _, _ => Panicked
  end.

(** [for i := len(history) - 1; i > -1; i-- { ... }]: [n] is [i + 1]. *)
Fixpoint normalizeLoop (n : nat) (history : list TrajectoryPoint)
    : outcome (list TrajectoryPoint) :=
  match n with
  | O => Returned history
  | S i =>
      match rebaseAt i history with
      | Returned history' => normalizeLoop i history'
      | other => other
      end
  end.

(** Trajectory: the points of a flight from [initialAltitude] back down to
    it. *)
Definition Trajectory (fuel : nat)
    (initialAltitude initialVelocity initialTheta dt : F) (normalized : bool)
    : outcome (list TrajectoryPoint) :=
  let history :=
    [initialTrajectory initialAltitude initialVelocity initialTheta] in
  match rkLoop fuel initialAltitude dt history 0 with
  | Returned history =>
      let len := length history in
      match nth_error history (len - 2), nth_error history (len - 1) with
      | Some a1, Some a2 =>
          if Nat.ltb len 2 then Panicked else
          let corrected := correctFinalPosition initialAltitude a1 a2 in
          (* Replace the last element. *)
          let history := firstn (len - 1) history in
          let history := history ++ [corrected] in
          if normalized then normalizeLoop (length history) history
          else Returned history
      | _, _ => Panicked
      end
  | other => other
  end.

(** *** Vocabulary of the statements *)

Definition altitude (p : TrajectoryPoint) : F := snd (Position p).

(** [orbit dt p n]: [p] advanced by [n] Runge-Kutta steps of length [dt]. *)
Fixpoint orbit (dt : F) (p : TrajectoryPoint) (n : nat) : TrajectoryPoint :=
  match n with
  | O => p
  | S n' => baseballKutta (orbit dt p n') dt
  end.

(** The invariant the spec states for a TrajectoryPoint: the stored
    acceleration is the one [accel] returns for the stored time, position
    and velocity. *)
Definition cacheInv (p : TrajectoryPoint) : Prop :=
  Acceleration p = accel (Time p) (Position p) (Velocity p).

(** The loop test of [Trajectory] on the [n]-th point after [p]. *)
Definition aloft (initialAltitude dt : F) (p : TrajectoryPoint) (n : nat)
    : bool :=
  altitude (orbit dt p n) >? initialAltitude.

(** The slice [Trajectory] holds when its loop stops after [n] rounds and
    the last point has been replaced, before any rebasing. *)
Definition corrected (initialAltitude dt : F) (p : TrajectoryPoint) (n : nat)
    : list TrajectoryPoint :=
  map (orbit dt p) (seq 0 n)
  ++ [correctFinalPosition initialAltitude
        (orbit dt p (n - 1)) (orbit dt p n)].

End Generic.

Arguments vec2 F : clear implicits.
Arguments TrajectoryPoint F : clear implicits.

End trajectory.

(** ** Package pixel (github.com/faiface/pixel): vectors and rectangles *)

Module pixel.
Section Generic.
Context {F : Type} {N : Num F}.
Local Open Scope num_scope.

Record Vec : Type := { X : F; Y : F }.
Record Rect : Type := { Min : Vec; Max : Vec }.

(** Modelled from the spec: package pixel is a dependency of the
    repository and none of its files is under src/.  The functions below are
    the ones the programs call: [V], [R], [Vec.Add], [Vec.Scaled], [Lerp],
    [Rect.Center], [Rect.Moved], [Rect.Norm] ("normalization reorders
    min/max corners so width/height are non-negative") and [Rect.Intersect]
    ("standard axis-aligned rectangle overlap"), which returns
    [R(0, 0, 0, 0)] when the rectangles do not overlap. *)
Definition V (x y : F) : Vec := {| X := x; Y := y |}.

Definition R (minX minY maxX maxY : F) : Rect :=
  {| Min := V minX minY; Max := V maxX maxY |}.

Definition Add (u v : Vec) : Vec := V (X u + X v) (Y u + Y v).

Definition Scaled (u : Vec) (c : F) : Vec := V (X u * c) (Y u * c).

Definition Lerp (a b : Vec) (t : F) : Vec :=
  Add (Scaled a (lit 1 - t)) (Scaled b t).

Definition Center (r : Rect) : Vec := Lerp (Min r) (Max r) (lit 0.5).

Definition Moved (r : Rect) (delta : Vec) : Rect :=
  {| Min := Add (Min r) delta; Max := Add (Max r) delta |}.

Definition Norm (r : Rect) : Rect :=
  {| Min := V (fmin (X (Min r)) (X (Max r))) (fmin (Y (Min r)) (Y (Max r)));
     Max := V (fmax (X (Min r)) (X (Max r))) (fmax (Y (Min r)) (Y (Max r))) |}.

Definition Intersect (r s : Rect) : Rect :=
  let t := R (fmax (X (Min r)) (X (Min s)))
             (fmax (Y (Min r)) (Y (Min s)))
             (fmin (X (Max r)) (X (Max s)))
             (fmin (Y (Max r)) (Y (Max s))) in
  if (X (Min t) >=? X (Max t)) || (Y (Min t) >=? Y (Max t))
  then R (lit 0) (lit 0) (lit 0) (lit 0)
  else t.

(** Go's [==] on the two structs: field by field. *)
Definition Vec_eqb (u v : Vec) : bool := (X u ==? X v) && (Y u ==? Y v).
Definition Rect_eqb (r s : Rect) : bool :=
  Vec_eqb (Min r) (Min s) && Vec_eqb (Max r) (Max s).

(** *** Vocabulary of the statements *)

(** The point [pt] lies in the rectangle [r], its border included. *)
Definition contains (r : Rect) (pt : Vec) : Prop :=
  (X (Min r) <=? X pt) = true /\ (X pt <=? X (Max r)) = true /\
  (Y (Min r) <=? Y pt) = true /\ (Y pt <=? Y (Max r)) = true.

(** Two rectangles meet when some point lies in both: their intersection,
    as sets of points, is not empty. *)
Definition meet (r s : Rect) : Prop :=
  exists pt, contains r pt /\ contains s pt.

(** [r] has a positive width and a positive height. *)
Definition solid (r : Rect) : Prop :=
  (X (Min r) <? X (Max r)) = true /\ (Y (Min r) <? Y (Max r)) = true.

(** Along both axes each rectangle begins strictly before the other
    ends: the usual overlap test for axis-aligned boxes. *)
Definition cross (r s : Rect) : Prop :=
  (X (Min r) <? X (Max s)) = true /\ (X (Min s) <? X (Max r)) = true /\
  (Y (Min r) <? Y (Max s)) = true /\ (Y (Min s) <? Y (Max r)) = true.

(** Two rectangles overlap when their interiors meet: the region they
    share has a positive width and a positive height. *)
Definition overlap (r s : Rect) : Prop := solid r /\ solid s /\ cross r s.

End Generic.

Arguments Vec F : clear implicits.
Arguments Rect F : clear implicits.

End pixel.

(** ** The cannon program (src/unnamed/part_001): projectiles and targets *)

Module cannon.
Section Generic.
Context {F : Type} {N : Num F}.
Variable M : MathLib F.
Local Open Scope num_scope.

(** Modelled from the spec: the program calls [trajectory.Accel] and
    [trajectory.UpdateRK4]; the package under src/ has neither name.  The
    spec has [fire] initialize the point "exactly as in the seed step" of the
    batch generator and [advance] apply "one RK4 Step with h = dt": they are
    [accel] and [baseballKutta]. *)
Definition Accel
    : F -> trajectory.vec2 F -> trajectory.vec2 F -> trajectory.vec2 F :=
  trajectory.accel M.
Definition UpdateRK4
    : trajectory.TrajectoryPoint F -> F -> trajectory.TrajectoryPoint F :=
  trajectory.baseballKutta M.

(** A Projectile is a sprite that has associated trajectory physics.  The
    sprite [spr] is drawing state and is left out. *)
Record Projectile : Type := {
  trj : trajectory.TrajectoryPoint F;
  rect : pixel.Rect F
}.

(** A Target is a sprite that has associated perlin-based physics. *)
Record Target : Type := {
  perlinx : F;
  trect : pixel.Rect F
}.

(** fireProjectile assigns [p.trj] and [p.rect]; nothing of the receiver
    is read. *)
Definition fireProjectile (p : Projectile)
    (initialAltitude initialAngle initialVelocity : F) : Projectile :=
  let position := (lit 0.0, initialAltitude) in
  let velocity :=
    (initialVelocity * Cos M (initialAngle * Pi / lit 180.0),
     initialVelocity * Sin M (initialAngle * Pi / lit 180.0)) in
  let acceleration := Accel (lit 0.0) position velocity in
  {| trj := {| trajectory.Time := lit 0.0;
               trajectory.Position := position;
               trajectory.Velocity := velocity;
               trajectory.Acceleration := acceleration |};
     rect := pixel.R (- lit 1) (- lit 1) (lit 1) (lit 1) |}.

Definition updateTrajectory (p : Projectile) (dt : F) : Projectile :=
  let newTrajectory := UpdateRK4 (trj p) dt in
  let newVec :=
    pixel.V (fst (trajectory.Position newTrajectory)
               - fst (trajectory.Position (trj p)))
            (snd (trajectory.Position newTrajectory)
               - snd (trajectory.Position (trj p))) in
  {| trj := newTrajectory; rect := pixel.Moved (rect p) newVec |}.

Definition updateTarget (t : Target) (newPos : pixel.Vec F) : Target :=
  let c := pixel.Center (trect t) in
  {| perlinx := perlinx t;
     trect := pixel.Moved (trect t)
                (pixel.V (pixel.X newPos - pixel.X c)
                         (pixel.Y newPos - pixel.Y c)) |}.

(** detectCollision: [hit] starts false and is set by every projectile
    whose rectangle meets the target's. *)
Definition detectCollision (t : Target) (p : list Projectile) : bool :=
  let hit := false in
  let tNormed := pixel.Norm (trect t) in
  fold_left
    (fun hit prj =>
       let pNormed := pixel.Norm (rect prj) in
       if negb (pixel.Rect_eqb (pixel.Intersect tNormed pNormed)
                  (pixel.R (lit 0) (lit 0) (lit 0) (lit 0)))
       then true else hit)
    p hit.

(** [&Projectile{}]: the value a projectile has before it is fired. *)
Definition zeroProjectile : Projectile :=
  {| trj := {| trajectory.Time := lit 0;
               trajectory.Position := (lit 0, lit 0);
               trajectory.Velocity := (lit 0, lit 0);
               trajectory.Acceleration := (lit 0, lit 0) |};
     rect := pixel.R (lit 0) (lit 0) (lit 0) (lit 0) |}.

(** The state of a projectile fired and then advanced once per entry of
    [dts], oldest first. *)
Definition flight (initialAltitude initialAngle initialVelocity : F)
    (dts : list F) (p0 : Projectile) : Projectile :=
  fold_left updateTrajectory dts
    (fireProjectile p0 initialAltitude initialAngle initialVelocity).

End Generic.

Arguments Projectile F : clear implicits.
Arguments Target F : clear implicits.

End cannon.

(** Sequencing of calls that may panic or run out of rounds. *)
Definition bind {A B : Type} (o : outcome A) (k : A -> outcome B) : outcome B :=
  match o with
  | Returned a => k a
  | Panicked => Panicked
  | OutOfFuel => OutOfFuel
  end.

(** An untyped integer constant of the source, converted where it is used. *)
Definition int {F : Type} `{Num F} (z : Z) : F := lit (inject_Z z).

(** ** The trajectory viewer (src/unnamed/part_001, lines 50-177) *)

Module viewer.
Section Generic.
Context {F : Type} {N : Num F}.
Variable M : MathLib F.
Local Open Scope num_scope.

(** doCalc: the batch run with a step of 0.1 s, normalized; the table it
    prints is left out. *)
Definition doCalc (fuel : nat) (initialAltitude initialAngle initialVelocity : F)
    : outcome (list (trajectory.TrajectoryPoint F)) :=
  let dt := lit 0.1 in
  let normalized := true in
  trajectory.Trajectory M fuel initialAltitude initialVelocity initialAngle
    dt normalized.

(** The variables of [run] that outlive a frame.  [newtrj] is [None] when
    the slice is nil. *)
Record State : Type := {
  Angle : F;
  Velocity : F;
  trj : list (trajectory.TrajectoryPoint F);
  newtrj : option (list (trajectory.TrajectoryPoint F));
  inc : nat
}.

(** The keys held down during a frame. *)
Record Keys : Type := {
  KeyRight : bool;
  KeyLeft : bool;
  KeyUp : bool;
  KeyDown : bool
}.

Definition Altitude : F := lit 1609.0.

(** [if win.Pressed(key) { ...; newtrj = doCalc(Altitude, Angle, Velocity) }] *)
Definition pressed (fuel : nat) (key : bool) (change : State -> State)
    (s : State) : outcome State :=
  if key then
    let s := change s in
    bind (doCalc fuel Altitude (Angle s) (Velocity s)) (fun history =>
    Returned {| Angle := Angle s; Velocity := Velocity s; trj := trj s;
                newtrj := Some history; inc := inc s |})
  else Returned s.

Definition setVelocity (v : F) (s : State) : State :=
  {| Angle := Angle s; Velocity := v; trj := trj s; newtrj := newtrj s;
     inc := inc s |}.

Definition setAngle (a : F) (s : State) : State :=
  {| Angle := a; Velocity := Velocity s; trj := trj s; newtrj := newtrj s;
     inc := inc s |}.

(** One round of the loop [for !win.Closed()]: the point [trj[inc]] is
    drawn, [inc] moves on and wraps, and the keys are read. *)
Definition frame (fuel : nat) (k : Keys) (s : State) : outcome State :=
  match nth_error (trj s) (inc s) with
  | None => Panicked
  | Some _ =>
      let inc := S (inc s) in
      let s :=
        if (Z.of_nat (length (trj s)) - 1 <? Z.of_nat inc)%Z then
          match newtrj s with
          | Some t =>
              {| Angle := Angle s; Velocity := Velocity s; trj := t;
                 newtrj := None; inc := 0 |}
          | None =>
              {| Angle := Angle s; Velocity := Velocity s; trj := trj s;
                 newtrj := None; inc := 0 |}
          end
        else
          {| Angle := Angle s; Velocity := Velocity s; trj := trj s;
             newtrj := newtrj s; inc := inc |} in
      bind (pressed fuel (KeyRight k)
              (fun s => setVelocity (Velocity s + lit 1.0) s) s) (fun s =>
      bind (pressed fuel (KeyLeft k)
              (fun s => setVelocity (Velocity s - lit 1.0) s) s) (fun s =>
      bind (pressed fuel (KeyUp k)
              (fun s => setAngle (Angle s + lit 1.0) s) s) (fun s =>
      pressed fuel (KeyDown k)
              (fun s => setAngle (Angle s - lit 1.0) s) s)))
  end.

(** The state [run] enters its loop with. *)
Definition start (fuel : nat) : outcome State :=
  let Angle := lit 40.0 in
  let Velocity := lit 100.0 in
  bind (doCalc fuel Altitude Angle Velocity) (fun trj =>
  Returned {| Angle := Angle; Velocity := Velocity; trj := trj;
              newtrj := None; inc := 0 |}).

(** The loop, for as many frames as there are entries in [ks]. *)
Fixpoint frames (fuel : nat) (ks : list Keys) (s : State) : outcome State :=
  match ks with
  | [] => Returned s
  | k :: ks' => bind (frame fuel k s) (frames fuel ks')
  end.

Definition run (fuel : nat) (ks : list Keys) : outcome State :=
  bind (start fuel) (frames fuel ks).

(** *** Vocabulary of the statements *)

(** [trj[inc]] exists, and so does the first point of a slice waiting in
    [newtrj]. *)
Definition playable (s : State) : Prop :=
  (inc s < length (trj s))%nat /\
  forall t, newtrj s = Some t -> (0 < length t)%nat.

End Generic.

Arguments State F : clear implicits.

End viewer.

(** ** The baseball viewer (src/bbgui.go, run) *)

Module bbgui.
Section Generic.
Variable A : Type.

(** One round of the loop [for !win.Closed()]: [inc] wraps, the point
    [history[inc]] is drawn, [inc] moves on.  The result is the point drawn
    and the new [inc]. *)
Definition frame (history : list A) (inc : nat) : outcome (A * nat) :=
  let inc :=
    if (Z.of_nat (length history) - 1 <? Z.of_nat inc)%Z then 0%nat else inc in
  match nth_error history inc with
  | None => Panicked
  | Some p => Returned (p, S inc)
  end.

(** [inc] after [n] rounds, from 0. *)
Fixpoint frames (history : list A) (n : nat) : outcome nat :=
  match n with
  | O => Returned 0%nat
  | S n' => bind (frames history n') (fun inc =>
            bind (frame history inc) (fun r => Returned (snd r)))
  end.

(** The point round [n] draws, counting from 0. *)
Definition drawn (history : list A) (n : nat) : outcome A :=
  bind (frames history n) (fun inc =>
  bind (frame history inc) (fun r => Returned (fst r))).

End Generic.
End bbgui.

(** ** The loop of the cannon game (src/unnamed/part_001, lines 327-480) *)

Module game.
Section Generic.
Context {F : Type} {N : Num F}.
Variable M : MathLib F.

(** [p.Noise1D] of package perlin, and the size of the picture
    haballoon.png ([pic3.Bounds().W()] and [.H()]): none is in the
    repository. *)
Variable Noise1D : F -> F.
Variables picW picH : F.
Local Open Scope num_scope.

Definition speedFactor : F := lit 8.0.
Definition xPctofScreen : F := lit 15.0.
Definition yPctofScreen : F := lit 15.0.

(** Integer constants: [/] is the division of integers. *)
Definition width : Z := 1024.
Definition height : Z := 768.
Definition verticalOffset : Z := Z.quot (height * 2) 3.
Definition scale : Z := Z.quot height 2.
Definition waveLength : Z := Z.quot width 4.
Definition inc : F := lit 6.0.

Record World : Type := {
  Angle : F;
  Velocity : F;
  Projs : list (cannon.Projectile F);
  Targs : list (cannon.Target F)
}.

(** What a frame reads from the outside: the seconds since the frame
    before, the mouse button and the keys. *)
Record Input : Type := {
  elapsed : F;
  MouseButtonLeft : bool;
  KeyRight : bool;
  KeyLeft : bool;
  KeyUp : bool;
  KeyDown : bool
}.

Definition Altitude : F := lit 0.0.

(** The test a projectile passes to stay in flight. *)
Definition inFlight (p : cannon.Projectile F) : bool :=
  snd (trajectory.Position (cannon.trj p)) >? lit 0.0.

(** "Update the projectile trajectory physics": every projectile is
    advanced, and kept when it is still above the ground. *)
Definition updateProjs (dt : F) (projs : list (cannon.Projectile F))
    : list (cannon.Projectile F) :=
  fold_left
    (fun keepProj p =>
       let p := cannon.updateTrajectory M p (dt * speedFactor) in
       if inFlight p then keepProj ++ [p] else keepProj)
    projs [].

(** "Create targets to shoot at": one, when there is none. *)
Definition createTargs (targs : list (cannon.Target F))
    : list (cannon.Target F) :=
  match targs with
  | [] =>
      let xPixels := xPctofScreen / lit 100.0 * picW in
      let yPixels := yPctofScreen / lit 100.0 * picH in
      [{| cannon.perlinx := int (Z.quot (- width) 2);
          cannon.trect := pixel.R (- xPixels / lit 2) (- yPixels / lit 2)
                                  (xPixels / lit 2) (yPixels / lit 2) |}]
  | _ => targs
  end.

(** [targ.perlinx += inc], back to the left edge past the right one. *)
Definition advancePerlin (perlinx : F) : F :=
  let perlinx := perlinx + inc in
  if perlinx >? int (Z.quot width 2) then int (Z.quot (- width) 2)
  else perlinx.

Definition moveTarg (targ : cannon.Target F) : cannon.Target F :=
  let perlinx := advancePerlin (cannon.perlinx targ) in
  let position :=
    pixel.V perlinx
      (Noise1D (perlinx / int waveLength) * int scale + int verticalOffset) in
  cannon.updateTarget
    {| cannon.perlinx := perlinx; cannon.trect := cannon.trect targ |}
    position.

(** "Draw a target with motion using Perlin noise. Check for collisions":
    every target moves, and is kept when no projectile hits it. *)
Definition updateTargs (projs : list (cannon.Projectile F))
    (targs : list (cannon.Target F)) : list (cannon.Target F) :=
  fold_left
    (fun keepTarg targ =>
       let targ := moveTarg targ in
       let hit := cannon.detectCollision targ projs in
       if Bool.eqb hit false then keepTarg ++ [targ] else keepTarg)
    targs [].

(** One round of the loop [for !win.Closed()], the drawing left out. *)
Definition frame (i : Input) (w : World) : World :=
  let projs := updateProjs (elapsed i) (Projs w) in
  let targs := createTargs (Targs w) in
  let targs := updateTargs projs targs in
  let projs :=
    if MouseButtonLeft i then
      projs ++ [cannon.fireProjectile M cannon.zeroProjectile
                  Altitude (Angle w) (Velocity w)]
    else projs in
  let angle := Angle w in
  let velocity := Velocity w in
  let angle := if KeyRight i then angle - lit 1.0 else angle in
  let angle := if KeyLeft i then angle + lit 1.0 else angle in
  let velocity := if KeyUp i then velocity + lit 1.0 else velocity in
  let velocity := if KeyDown i then velocity - lit 1.0 else velocity in
  {| Angle := angle; Velocity := velocity; Projs := projs; Targs := targs |}.

(** The state [run] enters its loop with. *)
Definition start : World :=
  {| Angle := lit 90.0; Velocity := lit 90.0; Projs := []; Targs := [] |}.

Definition run (inputs : list Input) : World :=
  fold_left (fun w i => frame i w) inputs start.

(** *** Vocabulary of the statements *)

(** Where a new target starts. *)
Definition leftEdge : F := int (Z.quot (- width) 2).

(** A projectile as [fireProjectile] leaves it: at the muzzle, in a box
    of side 2 around the origin of the screen. *)
Definition justFired (p : cannon.Projectile F) : Prop :=
  exists angle velocity,
    p = cannon.fireProjectile M cannon.zeroProjectile Altitude angle velocity.

End Generic.

Arguments World F : clear implicits.
Arguments Input F : clear implicits.

End game.

(** ** Vocabulary for rectangles and for the atmosphere *)

(** [r] with the first coordinates of its two corners exchanged, and with
    the second ones exchanged. *)
Definition flipX {F : Type} (r : pixel.Rect F) : pixel.Rect F :=
  {| pixel.Min := {| pixel.X := pixel.X (pixel.Max r);
                     pixel.Y := pixel.Y (pixel.Min r) |};
     pixel.Max := {| pixel.X := pixel.X (pixel.Min r);
                     pixel.Y := pixel.Y (pixel.Max r) |} |}.

Definition flipY {F : Type} (r : pixel.Rect F) : pixel.Rect F :=
  {| pixel.Min := {| pixel.X := pixel.X (pixel.Min r);
                     pixel.Y := pixel.Y (pixel.Max r) |};
     pixel.Max := {| pixel.X := pixel.X (pixel.Max r);
                     pixel.Y := pixel.Y (pixel.Min r) |} |}.

(** The three results of [simpleAtmosphere], by name. *)
Module air.
Section Generic.
Context {F : Type} {N : Num F}.
Variable M : MathLib F.

Definition density (alt : F) : F := fst (fst (trajectory.simpleAtmosphere M alt)).
Definition pressure (alt : F) : F := snd (fst (trajectory.simpleAtmosphere M alt)).
Definition temperature (alt : F) : F := snd (trajectory.simpleAtmosphere M alt).

End Generic.
End air.

(** ** The two arithmetics *)

(** *** binary64

    Every operation rounds on its own, to nearest, as the code the Go
    compiler emits for amd64 does: no two operations are fused. *)

Module Float64.
Local Open Scope float_scope.

Definition of_Z (z : Z) : float :=
  match z with
  | Z0 => 0
  | Zpos p => of_uint63 (Uint63.of_Z (Zpos p))
  | Zneg p => - of_uint63 (Uint63.of_Z (Zpos p))
  end.

(** A decimal literal denotes the binary64 value nearest to it.  Numerator
    and denominator of every literal of the source are below [2^53], so both
    convert exactly and the one division rounds once, to nearest. *)
Definition literal (q : Q) : float := of_Z (Qnum q) / of_Z (Zpos (Qden q)).

(** [math.Max] and [math.Min], special cases in the order Go tests them. *)
Definition max (x y : float) : float :=
  if (x =? infinity) || (y =? infinity) then infinity
  else if is_nan x || is_nan y then nan
  else if (x =? 0) && (x =? y) then (if get_sign x then y else x)
  else if y <? x then x else y.

Definition min (x y : float) : float :=
  if (x =? neg_infinity) || (y =? neg_infinity) then neg_infinity
  else if is_nan x || is_nan y then nan
  else if (x =? 0) && (x =? y) then (if get_sign x then x else y)
  else if x <? y then x else y.

#[global] Instance num : Num float := {|
  add := PrimFloat.add;
  sub := PrimFloat.sub;
  mul := PrimFloat.mul;
  div := PrimFloat.div;
  opp := PrimFloat.opp;
  sqrt := PrimFloat.sqrt;
  ltb := PrimFloat.ltb;
  leb := PrimFloat.leb;
  eqb := PrimFloat.eqb;
  fmax := max;
  fmin := min;
  lit := literal;
  Pi := 0x1.921fb54442d18p+1
|}.

(** *** Vocabulary of the statements *)

(** A [[2]float64] both of whose entries are NaN. *)
Definition nan2 : float * float := (nan, nan).

(** [x] is [+0] or [-0]. *)
Definition isZero (x : float) : Prop :=
  Prim2SF x = S754_zero false \/ Prim2SF x = S754_zero true.

(** [x] is a number: finite or infinite. *)
Definition notNan (x : float) : Prop := Prim2SF x <> S754_nan.

(** No coordinate of [r] is NaN. *)
Definition realRect (r : pixel.Rect float) : Prop :=
  notNan (pixel.X (pixel.Min r)) /\ notNan (pixel.Y (pixel.Min r)) /\
  notNan (pixel.X (pixel.Max r)) /\ notNan (pixel.Y (pixel.Max r)).

(** *** The same functions on the specification of binary64

    [Prim2SF] maps a primitive float to its description as a
    [spec_float]; the comparisons and [max], [min] are restated there, where
    a value can be taken apart. *)

Definition pinf : spec_float := S754_infinity false.
Definition ninf : spec_float := S754_infinity true.
Definition pzero : spec_float := S754_zero false.
Definition sfone : spec_float := S754_finite false 4503599627370496 (-52).

Definition SFis_nan (a : spec_float) : bool := negb (SFeqb a a).

Definition SFget_sign (a : spec_float) : bool :=
  SFltb (if SFeqb a pzero then SF64div sfone a else a) pzero.

Definition SFmax (a b : spec_float) : spec_float :=
  if SFeqb a pinf || SFeqb b pinf then pinf
  else if SFis_nan a || SFis_nan b then S754_nan
  else if SFeqb a pzero && SFeqb a b then (if SFget_sign a then b else a)
  else if SFltb b a then a else b.

Definition SFmin (a b : spec_float) : spec_float :=
  if SFeqb a ninf || SFeqb b ninf then ninf
  else if SFis_nan a || SFis_nan b then S754_nan
  else if SFeqb a pzero && SFeqb a b then (if SFget_sign a then a else b)
  else if SFltb a b then a else b.

End Float64.

(** A [math] library for binary64, to run the model on concrete inputs:
    range reduction and Taylor polynomials, good to about an ulp on the
    arguments the trajectories below produce.  It is not Go's
    implementation; statements about the program quantify over every
    [MathLib float]. *)
Module RefMath.
Local Open Scope float_scope.

(** The integer an integer-valued float holds. *)
Definition to_Z (x : float) : Z :=
  match Prim2SF x with
  | S754_finite s m e =>
      let v := if (0 <=? e)%Z then Z.shiftl (Zpos m) e
               else Z.shiftr (Zpos m) (- e) in
      if s then (- v)%Z else v
  | _ => 0%Z
  end.

Definition round_int (x : float) : float := (x + 0x1.8p52) - 0x1.8p52.

Fixpoint horner (cs : list float) (x : float) : float :=
  match cs with
  | [] => 0
  | c :: cs' => c + x * horner cs' x
  end.

(** [1/k!], [1/(k+1)!], ... *)
Fixpoint inv_fact (n : nat) (k acc : float) : list float :=
  match n with
  | O => []
  | S n' => acc :: inv_fact n' (k + 1) (acc / (k + 1))
  end.

Definition exp_coeffs : list float := inv_fact 20 0 1.
Definition ln2_hi : float := 0x1.62e42fee00000p-1.
Definition ln2_lo : float := 0x1.a39ef35793c76p-33.
Definition inv_ln2 : float := 0x1.71547652b82fep+0.

Definition exp (x : float) : float :=
  if is_nan x then nan
  else if 710 <? x then infinity
  else if x <? -746 then 0
  else
    let k := round_int (x * inv_ln2) in
    let r := (x - k * ln2_hi) - k * ln2_lo in
    Z.ldexp (horner exp_coeffs r) (to_Z k).

(** [1/k + s2/(k+2) + s2^2/(k+4) + ...] *)
Fixpoint atanh_series (n : nat) (k s2 : float) : float :=
  match n with
  | O => 0
  | S n' => 1 / k + s2 * atanh_series n' (k + 2) s2
  end.

Definition log (x : float) : float :=
  if is_nan x || (x <? 0) then nan
  else if x =? 0 then neg_infinity
  else if x =? infinity then infinity
  else
    let (m, e) := Z.frexp x in
    let '(m, e) :=
      if m <? 0x1.6a09e667f3bcdp-1 then (m * 2, (e - 1)%Z) else (m, e) in
    let s := (m - 1) / (m + 1) in
    let ef := Float64.of_Z e in
    2 * s * atanh_series 16 1 (s * s) + ef * ln2_lo + ef * ln2_hi.

(** The special cases are those documented for [math.Pow], as far as the
    package reaches them. *)
Definition pow (x y : float) : float :=
  if (y =? 0) || (x =? 1) then 1
  else if y =? 1 then x
  else if is_nan x || is_nan y then nan
  else if x =? 0 then (if y <? 0 then infinity else 0)
  else if y =? 2 then x * x
  else if x <? 0 then nan
  else exp (y * log x).

Definition pio2_hi : float := 0x1.921fb54400000p+0.
Definition pio2_lo : float := 0x1.0b4611a626331p-34.
Definition two_over_pi : float := 0x1.45f306dc9c883p-1.

(** [acc], [-acc/((k+1)(k+2))], ...: the coefficients of [sin r / r]
    ([k = 1]) and of [cos r] ([k = 0]) in [r^2]. *)
Fixpoint alt_fact (n : nat) (k acc : float) : list float :=
  match n with
  | O => []
  | S n' => acc :: alt_fact n' (k + 2) (- acc / ((k + 1) * (k + 2)))
  end.

Definition sin_poly (r : float) : float := r * horner (alt_fact 12 1 1) (r * r).
Definition cos_poly (r : float) : float := horner (alt_fact 12 0 1) (r * r).

Definition reduce (x : float) : Z * float :=
  let k := round_int (x * two_over_pi) in
  (Z.modulo (to_Z k) 4, (x - k * pio2_hi) - k * pio2_lo).

Definition sin (x : float) : float :=
  if is_nan x || is_infinity x then nan
  else
    let (q, r) := reduce x in
    match q with
    | 0%Z => sin_poly r
    | 1%Z => cos_poly r
    | 2%Z => - sin_poly r
    | _ => - cos_poly r
    end.

Definition cos (x : float) : float :=
  if is_nan x || is_infinity x then nan
  else
    let (q, r) := reduce x in
    match q with
    | 0%Z => cos_poly r
    | 1%Z => - sin_poly r
    | 2%Z => - cos_poly r
    | _ => sin_poly r
    end.

Definition refMath : MathLib float :=
  {| Pow := pow; Exp := exp; Cos := cos; Sin := sin |}.

End RefMath.

(** Runs of the model on binary64 with [RefMath.refMath], for the
    statements below to be tried on.  Each is the slice [Trajectory]
    returns, computed once. *)
Module Samples.
Import trajectory.

Definition history (o : outcome (list (TrajectoryPoint float)))
    : list (TrajectoryPoint float) :=
  match o with
  | Returned h => h
  | _ => []
  end.

(** The scenario of the spec: altitude 0 m, 40 degrees, 100 m/s, a step
    of 0.1 s. *)
Definition shot : list (TrajectoryPoint float) :=
  Eval vm_compute in
    history (Trajectory RefMath.refMath 1000
               (lit 0) (lit 100) (lit 40) (lit 0.1) false).

(** The run the trajectory viewer starts with: altitude 1609 m, 40
    degrees, 100 m/s, normalized. *)
Definition denver : list (TrajectoryPoint float) :=
  Eval vm_compute in
    history (Trajectory RefMath.refMath 1000
               (lit 1609) (lit 100) (lit 40) (lit 0.1) true).



(** A launch at speed 0. *)
Definition atRest : list (TrajectoryPoint float) :=
  Eval vm_compute in
    history (Trajectory RefMath.refMath 1000
               (lit 0) (lit 0) (lit 45) (lit 0.1) false).

(** A projectile with a given rectangle, and a target with one. *)
Definition projectileAt (r : pixel.Rect float) : cannon.Projectile float :=
  {| cannon.trj := cannon.trj cannon.zeroProjectile; cannon.rect := r |}.

Definition targetAt (r : pixel.Rect float) : cannon.Target float :=
  {| cannon.perlinx := lit 0; cannon.trect := r |}.

(** The first shot of the cannon program: altitude 0 m, straight up at
    90 m/s, after seven frames of 0.13 s. *)
Definition upward : cannon.Projectile float :=
  Eval vm_compute in
    cannon.flight RefMath.refMath (lit 0) (lit 90) (lit 90)
      (repeat (lit 0.13) 7) cannon.zeroProjectile.

End Samples.

(** States of the two programs on binary64, for the statements below to
    be tried on. *)
Module Scenes.
Import trajectory.

Definition noKeys : viewer.Keys :=
  {| viewer.KeyRight := false; viewer.KeyLeft := false;
     viewer.KeyUp := false; viewer.KeyDown := false |}.

(** The viewer showing point [inc] of its first run. *)
Definition playing (inc : nat) : viewer.State float :=
  {| viewer.Angle := lit 40.0; viewer.Velocity := lit 100.0;
     viewer.trj := Samples.denver; viewer.newtrj := None; viewer.inc := inc |}.

(** A cannonball fired at speed 0. *)
Definition dud : cannon.Projectile float :=
  cannon.fireProjectile RefMath.refMath cannon.zeroProjectile
    game.Altitude (lit 90.0) (lit 0).

(** The first point of a run from 10 m. *)
Definition onTheSpot : TrajectoryPoint float :=
  initialTrajectory RefMath.refMath (lit 10) (lit 100) (lit 45).

(** A frame of 16 ms with the mouse button down, and one without. *)
Definition shoot : game.Input float :=
  {| game.elapsed := lit 0.016; game.MouseButtonLeft := true;
     game.KeyRight := false; game.KeyLeft := false;
     game.KeyUp := false; game.KeyDown := false |}.

Definition idle : game.Input float :=
  {| game.elapsed := lit 0.016; game.MouseButtonLeft := false;
     game.KeyRight := false; game.KeyLeft := false;
     game.KeyUp := false; game.KeyDown := false |}.

(** Where a target is after [r] frames, counted from the left edge. *)
Definition sweepAt (r : nat) : Prop :=
  Nat.iter r game.advancePerlin (game.leftEdge : float) =
    int (-512 + 6 * Z.of_nat r) /\
  (int (-512) <=? Nat.iter r game.advancePerlin (game.leftEdge : float))%num
    = true /\
  (Nat.iter r game.advancePerlin (game.leftEdge : float) <=? int 512)%num
    = true.

End Scenes.

(** *** The real numbers *)

Module Real.
Local Open Scope R_scope.

Definition lt_b (x y : R) : bool := if Rlt_dec x y then true else false.
Definition le_b (x y : R) : bool := if Rle_dec x y then true else false.
Definition eq_b (x y : R) : bool := if Req_dec_T x y then true else false.

#[global] Instance num : Num R := {|
  add := Rplus;
  sub := Rminus;
  mul := Rmult;
  div := Rdiv;
  opp := Ropp;
  sqrt := R_sqrt.sqrt;
  ltb := lt_b;
  leb := le_b;
  eqb := eq_b;
  fmax := Rmax;
  fmin := Rmin;
  lit := Q2R;
  Pi := PI
|}.

(** The classical fourth-order Runge-Kutta method for [y' = f(t, y)], as
    the spec words it: four slopes, at the start, at two midpoints reached
    with half a step along the previous slope, and at the end point reached
    with a full step along the third; the step adds [h/6] times their sum
    with weights 1, 2, 2, 1.  The state [y] is (position, velocity) and
    [f(t, y)] is (velocity, acceleration). *)
Section Classic.
Variable M : MathLib R.

Definition state : Type := (trajectory.vec2 R * trajectory.vec2 R)%type.

Definition slope (t : R) (y : state) : state :=
  (snd y, trajectory.accel M t (fst y) (snd y)).

(** [y + c k], component by component. *)
Definition along (y : state) (c : R) (k : state) : state :=
  ((fst (fst y) + c * fst (fst k), snd (fst y) + c * snd (fst k)),
   (fst (snd y) + c * fst (snd k), snd (snd y) + c * snd (snd k))).

(** [k1 + 2 k2 + 2 k3 + k4], component by component. *)
Definition weighted (k1 k2 k3 k4 : state) : state :=
  let w (a b c d : R) := a + 2 * b + 2 * c + d in
  ((w (fst (fst k1)) (fst (fst k2)) (fst (fst k3)) (fst (fst k4)),
    w (snd (fst k1)) (snd (fst k2)) (snd (fst k3)) (snd (fst k4))),
   (w (fst (snd k1)) (fst (snd k2)) (fst (snd k3)) (fst (snd k4)),
    w (snd (snd k1)) (snd (snd k2)) (snd (snd k3)) (snd (snd k4)))).

Definition rk4_classic (p : trajectory.TrajectoryPoint R) (h : R)
    : trajectory.TrajectoryPoint R :=
  let t := trajectory.Time p in
  let y := (trajectory.Position p, trajectory.Velocity p) in
  let k1 := slope t y in
  let k2 := slope (t + h / 2) (along y (h / 2) k1) in
  let k3 := slope (t + h / 2) (along y (h / 2) k2) in
  let k4 := slope (t + h) (along y h k3) in
  let y' := along y (h / 6) (weighted k1 k2 k3 k4) in
  {| trajectory.Time := t + h;
     trajectory.Position := fst y';
     trajectory.Velocity := snd y';
     trajectory.Acceleration := trajectory.accel M (t + h) (fst y') (snd y') |}.

End Classic.

(** A [math] library over the reals in which the air has no pressure:
    squares are squares, every other power and every exponential is 0.  The
    sphere then falls freely, and a run of the model can be followed by
    hand. *)
Definition vacuum : MathLib R :=
  {| Pow := fun x y => if Req_dec_T y 2 then x * x else 0;
     Exp := fun _ => 0;
     Cos := cos;
     Sin := sin |}.

(** The run the statements about exact arithmetic are tried on: a shot
    straight up in the vacuum at 9.8066 m/s, with a step of one second.  It
    rises for one step, is back at the launch altitude after the second, and
    the loop stops there. *)
Definition vacuumSeed : trajectory.TrajectoryPoint R :=
  trajectory.initialTrajectory vacuum (lit 0) (lit 9.8066) (lit 90).


(** The rectangle of a projectile fired at altitude [alt], once the
    projectile is at [pos]. *)
Definition boxed (alt : R) (p : cannon.Projectile R) : Prop :=
  cannon.rect p =
  pixel.R (fst (trajectory.Position (cannon.trj p)) - 1)
          (snd (trajectory.Position (cannon.trj p)) - alt - 1)
          (fst (trajectory.Position (cannon.trj p)) + 1)
          (snd (trajectory.Position (cannon.trj p)) - alt + 1).

End Real.

(** Math libraries and runs over the reals, for the statements about
    exact arithmetic to be tried on. *)
Module RealSamples.
Local Open Scope R_scope.

(** A [math] library over the reals with the powers and the exponential
    of analysis: [Pow x y] is [x^y] for a positive [x], the square for
    [y = 2], and 0 otherwise. *)
Definition ideal : MathLib R :=
  {| Pow := fun x y => if Req_dec_T y 2 then x * x
                       else if Rlt_dec 0 x then Rpower x y else 0;
     Exp := exp;
     Cos := cos;
     Sin := sin |}.



End RealSamples.

(** ** Proof tactics *)

(** Case analysis on the comparisons of mantissas and exponents inside the
    specification of the binary64 order. *)
Ltac cmp_cases :=
  repeat match goal with
  | H : context [Z.compare ?x ?y] |- _ => destruct (Z.compare_spec x y)
  | |- context [Z.compare ?x ?y] => destruct (Z.compare_spec x y)
  | H : context [PosDef.Pos.compare_cont Eq ?x ?y] |- _ =>
      change (PosDef.Pos.compare_cont Eq x y) with (Pos.compare x y) in H;
      destruct (Pos.compare_spec x y)
  | |- context [PosDef.Pos.compare_cont Eq ?x ?y] =>
      change (PosDef.Pos.compare_cont Eq x y) with (Pos.compare x y);
      destruct (Pos.compare_spec x y)
  end.

(** The seven shapes of a [spec_float]: the two zeros, the two infinities,
    NaN, and the finite numbers of either sign. *)
Ltac sf_cases a := destruct a as [[]|[]| |[] ? ?].

(** Facts on [SFltb], [SFleb] and [SFeqb] once the shapes are known. *)
Ltac sf_solve :=
  unfold SFltb, SFleb, SFeqb, SFcompare in *;
  cmp_cases; cbn in *; subst;
  try congruence; try lia.

(** The same with [Float64.SFmax] and [Float64.SFmin]. *)
Ltac mm_solve :=
  unfold Float64.SFmax, Float64.SFmin, Float64.SFis_nan, Float64.SFget_sign,
    SFltb, SFleb, SFeqb, SFcompare,
    Float64.pinf, Float64.ninf, Float64.pzero in *;
  cbn in *;
  repeat (progress (cmp_cases; cbn in *; subst; try lia));
  try congruence; try lia.

(** The operations of [Float64.num], unfolded to the primitive ones. *)
Ltac prim := cbn [add sub mul div opp sqrt ltb leb eqb gtb geb Float64.num].

(** Two binary64 values that evaluation tells apart are not equal. *)
Ltac differ :=
  let H := fresh in
  intro H; apply (f_equal Prim2SF) in H; vm_compute in H; discriminate H.

(** The operations of [Real.num], unfolded. *)
Ltac real :=
  cbn [add sub mul div opp sqrt ltb leb eqb gtb geb lit Pi fmax fmin Real.num]
    in *.

(** Decimal literals as quotients of integers. *)
Ltac lits := unfold Q2R in *; cbn [Qnum Qden] in *.

(** Literals with an exponent, brought to a quotient of integers. *)
Ltac qnorm :=
  repeat match goal with
  | |- context [Q2R ?q] =>
      lazymatch q with
      | Qmake _ _ => fail
      | _ => let q' := eval cbv in q in change (Q2R q) with (Q2R q')
      end
  end.

(** * Properties *)

Unset Implicit Arguments.
Local Open Scope nat_scope.

(** ** The loop of [Trajectory], for every arithmetic *)

Section Loop.
Context {F : Type} {N : Num F}.
Variable M : MathLib F.
Import trajectory.

Implicit Types (p : TrajectoryPoint F) (h pre : list (TrajectoryPoint F)).

Lemma orbit_shift dt p n :
  orbit M dt (baseballKutta M p dt) n = orbit M dt p (S n).
Proof.
  induction n as [|n IH]; simpl; [reflexivity|].
  now rewrite IH.
Qed.

Lemma orbit_seq_shift dt p a n :
  map (orbit M dt p) (seq (S a) n) =
  map (orbit M dt (baseballKutta M p dt)) (seq a n).
Proof.
  rewrite <- seq_shift, map_map.
  apply map_ext; intro j. now rewrite orbit_shift.
Qed.

Lemma nth_error_last pre p : nth_error (pre ++ [p]) (length pre) = Some p.
Proof.
  rewrite nth_error_app2 by lia. now rewrite Nat.sub_diag.
Qed.

(** The loop, from a slice whose last element is [p]: it returns after [n]
    rounds exactly when the first [n - 1] new points are aloft and the
    [n]-th is not. *)
Lemma rkLoop_returned fuel : forall alt dt pre p h,
  rkLoop M fuel alt dt (pre ++ [p]) (length pre) = Returned h <->
  exists n, 1 <= n <= fuel /\
    (forall j, 1 <= j < n -> aloft M alt dt p j = true) /\
    aloft M alt dt p n = false /\
    h = pre ++ map (orbit M dt p) (seq 0 (S n)).
Proof.
  induction fuel as [|fuel IH]; intros alt dt pre p h.
  - simpl. split; [discriminate|]. intros (n & Hn & _). lia.
  - cbn [rkLoop]. rewrite nth_error_last.
    change (gtb (snd (Position (baseballKutta M p dt))) alt)
      with (aloft M alt dt p 1).
    destruct (aloft M alt dt p 1) eqn:H1.
    + replace (S (length pre)) with (length (pre ++ [p]))
        by (rewrite length_app; simpl; lia).
      rewrite IH. split.
      * intros (n & Hn & Hlo & Hhi & ->).
        exists (S n). split; [lia|]. split; [|split].
        -- intros j Hj. destruct j as [|[|j]]; [lia|exact H1|].
           unfold aloft. rewrite <- orbit_shift. apply Hlo. lia.
        -- unfold aloft. rewrite <- orbit_shift. exact Hhi.
        -- rewrite <- app_assoc. cbn [app seq map orbit]. do 3 f_equal.
           now rewrite (orbit_seq_shift dt p).
      * intros (n & Hn & Hlo & Hhi & ->).
        destruct n as [|[|n]]; [lia|congruence|].
        exists (S n). split; [lia|]. split; [|split].
        -- intros j Hj. unfold aloft. rewrite orbit_shift. apply Hlo. lia.
        -- unfold aloft. rewrite orbit_shift. exact Hhi.
        -- rewrite <- app_assoc. cbn [app seq map orbit]. do 3 f_equal.
           now rewrite (orbit_seq_shift dt p).
    + split.
      * intros [= <-]. exists 1. split; [lia|]. split; [|split].
        -- intros j Hj; lia.
        -- exact H1.
        -- now rewrite <- app_assoc.
      * intros (n & Hn & Hlo & Hhi & ->).
        destruct n as [|[|n]]; [lia| |].
        -- now rewrite <- app_assoc.
        -- rewrite Hlo in H1 by lia. discriminate.
Qed.

Lemma rkLoop_out_of_fuel fuel : forall alt dt pre p,
  rkLoop M fuel alt dt (pre ++ [p]) (length pre) = OutOfFuel <->
  (forall j, 1 <= j <= fuel -> aloft M alt dt p j = true).
Proof.
  induction fuel as [|fuel IH]; intros alt dt pre p.
  - simpl. split; [intros _ j Hj; lia|reflexivity].
  - cbn [rkLoop]. rewrite nth_error_last.
    change (gtb (snd (Position (baseballKutta M p dt))) alt)
      with (aloft M alt dt p 1).
    destruct (aloft M alt dt p 1) eqn:H1.
    + replace (S (length pre)) with (length (pre ++ [p]))
        by (rewrite length_app; simpl; lia).
      rewrite IH. split.
      * intros Hlo j Hj. destruct j as [|[|j]]; [lia|exact H1|].
        unfold aloft. rewrite <- orbit_shift. apply Hlo. lia.
      * intros Hlo j Hj. unfold aloft. rewrite orbit_shift. apply Hlo. lia.
    + split; [discriminate|]. intros Hlo. rewrite Hlo in H1 by lia. discriminate.
Qed.

Lemma rkLoop_no_panic fuel : forall alt dt pre p,
  rkLoop M fuel alt dt (pre ++ [p]) (length pre) <> Panicked.
Proof.
  induction fuel as [|fuel IH]; intros alt dt pre p; [discriminate|].
  cbn [rkLoop]. rewrite nth_error_last.
  destruct (gtb _ _); [|discriminate].
  replace (S (length pre)) with (length (pre ++ [p]))
    by (rewrite length_app; simpl; lia).
  apply IH.
Qed.

(** The rebasing loop subtracts the altitude of the first point from every
    point, the first included: index 0 is rewritten last. *)
Lemma rebaseAt_middle l1 x l2 p0 :
  rebaseAt (length l1) (l1 ++ x :: l2) =
  Returned (l1 ++ rebase (altitude (hd p0 (l1 ++ x :: l2))) x :: l2).
Proof.
  unfold rebaseAt.
  rewrite nth_error_app2 by lia. rewrite Nat.sub_diag. cbn [nth_error].
  rewrite firstn_app, Nat.sub_diag, firstn_all. cbn [firstn].
  rewrite app_nil_r.
  replace (skipn (S (length l1)) (l1 ++ x :: l2)) with l2.
  2:{ replace (S (length l1)) with (length (l1 ++ [x]))
        by (rewrite length_app; simpl; lia).
      replace (l1 ++ x :: l2) with ((l1 ++ [x]) ++ l2)
        by (now rewrite <- app_assoc).
      now rewrite skipn_app, Nat.sub_diag, skipn_all. }
  destruct l1; reflexivity.
Qed.

Lemma normalizeLoop_prefix : forall l1 p0 l2,
  normalizeLoop (length l1) (l1 ++ l2) =
  Returned (map (rebase (altitude (hd p0 (l1 ++ l2)))) l1 ++ l2).
Proof.
  intros l1. induction l1 as [|x l1 IH] using rev_ind; intros p0 l2.
  - reflexivity.
  - rewrite length_app, Nat.add_comm. cbn [length Nat.add normalizeLoop].
    rewrite <- app_assoc. cbn [app].
    rewrite (rebaseAt_middle l1 x l2 p0).
    rewrite (IH p0). rewrite map_app. cbn [map].
    rewrite <- app_assoc. cbn [app].
    destruct l1; reflexivity.
Qed.

Lemma normalizeLoop_all p0 h :
  normalizeLoop (length h) h = Returned (map (rebase (altitude (hd p0 h))) h).
Proof.
  rewrite <- (app_nil_r h) at 2. rewrite (normalizeLoop_prefix h p0 []).
  now rewrite !app_nil_r.
Qed.


Lemma nth_error_orbit dt p n j :
  j < n -> nth_error (map (orbit M dt p) (seq 0 n)) j = Some (orbit M dt p j).
Proof.
  intros Hj. rewrite nth_error_map, nth_error_seq.
  destruct (Nat.ltb_spec j n); [reflexivity|lia].
Qed.

(** What [Trajectory] does with the slice its loop returns after [n]
    rounds. *)
Lemma Trajectory_finish alt dt p n (normalized : bool) :
  1 <= n -> altitude p = alt ->
  (let history := map (orbit M dt p) (seq 0 (S n)) in
   let len := length history in
   match nth_error history (len - 2), nth_error history (len - 1) with
   | Some a1, Some a2 =>
       if Nat.ltb len 2 then Panicked else
       let c := correctFinalPosition alt a1 a2 in
       let history := firstn (len - 1) history in
       let history := history ++ [c] in
       if normalized then normalizeLoop (length history) history
       else Returned history
   | _, _ => Panicked
   end) =
  Returned ((if normalized then map (rebase alt) else fun l => l)
              (corrected M alt dt p n)).
Proof.
  intros Hn Halt. cbv zeta.
  rewrite length_map, length_seq.
  replace (S n - 2) with (n - 1) by lia.
  replace (S n - 1) with n by lia.
  rewrite !nth_error_orbit by lia.
  destruct (Nat.ltb_spec (S n) 2) as [|_]; [lia|].
  replace (firstn n (map (orbit M dt p) (seq 0 (S n))))
    with (map (orbit M dt p) (seq 0 n)).
  2:{ rewrite seq_S, map_app.
      rewrite firstn_app, length_map, length_seq, Nat.sub_diag.
      cbn [firstn]. rewrite app_nil_r.
      rewrite firstn_all2; [reflexivity|]. now rewrite length_map, length_seq. }
  fold (corrected M alt dt p n).
  destruct normalized; [|reflexivity].
  rewrite (normalizeLoop_all p). do 2 f_equal.
  unfold corrected. destruct n as [|n]; [lia|]. cbn. now rewrite Halt.
Qed.

Lemma Trajectory_returned fuel alt v theta dt normalized h :
  Trajectory M fuel alt v theta dt normalized = Returned h <->
  exists n, 1 <= n <= fuel /\
    (forall j, 1 <= j < n ->
       aloft M alt dt (initialTrajectory M alt v theta) j = true) /\
    aloft M alt dt (initialTrajectory M alt v theta) n = false /\
    h = (if normalized then map (rebase alt) else fun l => l)
          (corrected M alt dt (initialTrajectory M alt v theta) n).
Proof.
  unfold Trajectory.
  set (seed := initialTrajectory M alt v theta).
  destruct (rkLoop M fuel alt dt [seed] 0) as [h0| |] eqn:E.
  - apply (rkLoop_returned fuel alt dt [] seed) in E. destruct E as (n & Hn & Hlo & Hhi & ->).
    cbn [app]. pose proof (Trajectory_finish alt dt seed n normalized (proj1 Hn) eq_refl) as Hf.
    cbv zeta in Hf |- *. rewrite Hf. clear Hf.
    split.
    + intros [= <-]. exists n. auto.
    + intros (n' & Hn' & Hlo' & Hhi' & ->).
      assert (n' = n) as ->; [|reflexivity].
      destruct (Nat.lt_trichotomy n n') as [Hlt|[Heq|Hlt]]; [|auto|].
      * rewrite Hlo' in Hhi by lia. discriminate.
      * rewrite Hlo in Hhi' by lia. discriminate.
  - exfalso. revert E. apply (rkLoop_no_panic fuel alt dt [] seed).
  - split; [discriminate|].
    intros (n & Hn & Hlo & Hhi & _).
    apply (rkLoop_out_of_fuel fuel alt dt [] seed) with (j := n) in E; [|lia].
    rewrite E in Hhi. discriminate.
Qed.

Lemma Trajectory_out_of_fuel fuel alt v theta dt normalized :
  Trajectory M fuel alt v theta dt normalized = OutOfFuel <->
  (forall j, 1 <= j <= fuel ->
     aloft M alt dt (initialTrajectory M alt v theta) j = true).
Proof.
  unfold Trajectory.
  set (seed := initialTrajectory M alt v theta).
  rewrite <- (rkLoop_out_of_fuel fuel alt dt [] seed). cbn [app length].
  destruct (rkLoop M fuel alt dt [seed] 0) as [h0| |] eqn:E.
  - apply (rkLoop_returned fuel alt dt [] seed) in E. destruct E as (n & Hn & Hlo & Hhi & ->).
    cbn [app]. pose proof (Trajectory_finish alt dt seed n normalized (proj1 Hn) eq_refl) as Hf.
    cbv zeta in Hf |- *. rewrite Hf. clear Hf.
    split; discriminate.
  - split; discriminate.
  - split; reflexivity.
Qed.

Lemma Trajectory_no_panic fuel alt v theta dt normalized :
  Trajectory M fuel alt v theta dt normalized <> Panicked.
Proof.
  unfold Trajectory.
  set (seed := initialTrajectory M alt v theta).
  destruct (rkLoop M fuel alt dt [seed] 0) as [h0| |] eqn:E.
  - apply (rkLoop_returned fuel alt dt [] seed) in E. destruct E as (n & Hn & Hlo & Hhi & ->).
    cbn [app]. pose proof (Trajectory_finish alt dt seed n normalized (proj1 Hn) eq_refl) as Hf.
    cbv zeta in Hf |- *. rewrite Hf. clear Hf.
    discriminate.
  - exfalso. revert E. apply (rkLoop_no_panic fuel alt dt [] seed).
  - discriminate.
Qed.


(** The first round at which the loop test fails. *)
Lemma first_failure (f : nat -> bool) n :
  1 <= n -> f n = false ->
  exists m, 1 <= m <= n /\ f m = false /\ forall j, 1 <= j < m -> f j = true.
Proof.
  induction n as [n IH] using lt_wf_ind. intros Hn Hf.
  assert (Hdec : (forall j, 1 <= j < n -> f j = true) \/
                 (exists j, 1 <= j < n /\ f j = false)).
  { clear. induction n as [|n [IHn|(j & Hj & Hfj)]].
    - left. intros j Hj. lia.
    - destruct n as [|n]; [left; intros j Hj; lia|].
      destruct (f (S n)) eqn:E.
      + left. intros j Hj. destruct (Nat.eq_dec j (S n)) as [->|]; [exact E|].
        apply IHn. lia.
      + right. exists (S n). split; [lia|exact E].
    - right. exists j. split; [lia|exact Hfj]. }
  destruct Hdec as [Hall|(j & Hj & Hfj)].
  - exists n. repeat split; auto.
  - destruct (IH j (proj2 Hj) (proj1 Hj) Hfj) as (m & Hm & Hfm & Hlo).
    exists m. repeat split; auto; lia.
Qed.

Lemma nth_error_corrected alt dt p n j :
  j < n ->
  nth_error (corrected M alt dt p n) j = Some (orbit M dt p j).
Proof.
  intros Hj. unfold corrected.
  rewrite nth_error_app1 by now rewrite length_map, length_seq.
  now apply nth_error_orbit.
Qed.

Lemma length_corrected alt dt p n : length (corrected M alt dt p n) = S n.
Proof.
  unfold corrected. rewrite length_app, length_map, length_seq. simpl. lia.
Qed.

(** Firing a projectile and advancing it [n] times walks the orbit of the
    first point of the batch run. *)
Lemma flight_orbit alt theta v dt n (prj : cannon.Projectile F) :
  cannon.trj (cannon.flight M alt theta v (repeat dt n) prj) =
  orbit M dt (initialTrajectory M alt v theta) n.
Proof.
  unfold cannon.flight. induction n as [|n IH].
  - reflexivity.
  - change (repeat dt (S n)) with (dt :: repeat dt n).
    rewrite repeat_cons, fold_left_app. cbn [fold_left orbit].
    unfold cannon.updateTrajectory at 1. cbn [cannon.trj].
    unfold cannon.UpdateRK4. now rewrite IH.
Qed.

(** C1 (as amended).  The first point of a run and every point the
    Runge-Kutta step returns carry the acceleration [accel] gives for their
    own time, position and velocity, and so does every point but the last
    of a run that is not normalized; in a normalized run every point but
    the last is such a point with its altitude rebased afterwards, the
    acceleration left as it was.  The last point is built by
    [correctFinalPosition]: its acceleration is interpolated between the
    stored accelerations of the two points it replaces, at the same
    fraction as its position, and [accel] is not called. *)
Theorem C1_cache_invariant :
  (forall alt v theta, cacheInv M (initialTrajectory M alt v theta)) /\
  (forall p dt, cacheInv M (baseballKutta M p dt)) /\
  (forall fuel alt v theta dt history i p,
     Trajectory M fuel alt v theta dt false = Returned history ->
     S i < length history -> nth_error history i = Some p -> cacheInv M p) /\
  (forall fuel alt v theta dt history i q,
     Trajectory M fuel alt v theta dt true = Returned history ->
     S i < length history -> nth_error history i = Some q ->
     exists p, q = rebase alt p /\ cacheInv M p) /\
  (forall alt a1 a2,
     let fraction :=
       ((alt - altitude a1) / (altitude a2 - altitude a1))%num in
     let interp u v := (u + fraction * (v - u))%num in
     Acceleration (correctFinalPosition alt a1 a2) =
     (interp (fst (Acceleration a1)) (fst (Acceleration a2)),
      interp (snd (Acceleration a1)) (snd (Acceleration a2)))).
Proof.
  assert (Horbit : forall dt alt v theta i,
            cacheInv M (orbit M dt (initialTrajectory M alt v theta) i)).
  { intros dt alt v theta i. destruct i as [|i]; reflexivity. }
  split; [|split; [|split; [|split]]].
  - intros alt v theta. reflexivity.
  - intros p dt. reflexivity.
  - intros fuel alt v theta dt history i p Hrun Hi Hp.
    apply Trajectory_returned in Hrun.
    destruct Hrun as (n & Hn & _ & _ & ->).
    rewrite length_corrected in Hi.
    rewrite nth_error_corrected in Hp by lia.
    injection Hp as <-. apply Horbit.
  - intros fuel alt v theta dt history i q Hrun Hi Hq.
    apply Trajectory_returned in Hrun.
    destruct Hrun as (n & Hn & _ & _ & ->).
    rewrite length_map, length_corrected in Hi.
    rewrite nth_error_map, nth_error_corrected in Hq by lia.
    injection Hq as <-. eexists. split; [reflexivity|apply Horbit].
  - intros alt a1 a2. reflexivity.
Qed.

(** C7 (as amended).  The loop of [Trajectory] has no bound of its own.
    The call returns, given rounds enough, exactly when the loop test
    [Position[1] > initialAltitude] fails on some point after the first; when
    the test holds on every such point the call uses up any number of rounds
    it is given.  No index it uses is out of range. *)
Theorem C7_termination alt v theta dt normalized :
  ((exists fuel history,
      Trajectory M fuel alt v theta dt normalized = Returned history) <->
   (exists n, 1 <= n /\
      aloft M alt dt (initialTrajectory M alt v theta) n = false)) /\
  ((forall n, 1 <= n ->
      aloft M alt dt (initialTrajectory M alt v theta) n = true) ->
   forall fuel, Trajectory M fuel alt v theta dt normalized = OutOfFuel) /\
  (forall fuel, Trajectory M fuel alt v theta dt normalized <> Panicked).
Proof.
  split; [|split; [|intros fuel; apply Trajectory_no_panic]].
  - split.
    + intros (fuel & history & Hrun).
      apply Trajectory_returned in Hrun.
      destruct Hrun as (n & Hn & _ & Hhi & _). exists n. split; [lia|exact Hhi].
    + intros (n & Hn & Hhi).
      destruct (first_failure
                  (aloft M alt dt (initialTrajectory M alt v theta)) n Hn Hhi)
        as (m & Hm & Hfm & Hlo).
      exists m. eexists. apply Trajectory_returned.
      exists m. repeat split; auto; lia.
  - intros Hall fuel. apply Trajectory_out_of_fuel.
    intros j Hj. apply Hall. lia.
Qed.

(** C9 (as amended).  Whenever the batch run returns, its [n]-th point
    (counting from 0), for every [n] before the last, is the trajectory point
    of a projectile fired with the same altitude, angle and speed and
    advanced [n] times by [dt] -- the same point, not a close one -- once
    that point is rebased when the run is normalized. *)
Theorem C9_live_matches_batch fuel alt v theta dt normalized history n
    (prj : cannon.Projectile F) :
  Trajectory M fuel alt v theta dt normalized = Returned history ->
  S n < length history ->
  nth_error history n =
  Some ((if normalized then rebase alt else fun p => p)
          (cannon.trj (cannon.flight M alt theta v (repeat dt n) prj))).
Proof.
  intros Hrun Hn. apply Trajectory_returned in Hrun.
  destruct Hrun as (m & Hm & _ & _ & ->).
  rewrite flight_orbit.
  destruct normalized.
  - rewrite length_map, length_corrected in Hn.
    rewrite nth_error_map, nth_error_corrected by lia. reflexivity.
  - rewrite length_corrected in Hn.
    now rewrite nth_error_corrected by lia.
Qed.

(** C10 (as amended).  A run that returns has at least two points.  The
    seed point has time 0, position (0, initial altitude) and velocity
    (v cos, v sin) of the angle in degrees; the first point of the run is
    the seed point, rebased when the run is normalized.  The
    same run without normalization returns the slice the points come from,
    and there every point strictly between the first and the last has an
    altitude above the initial one. *)
Theorem C10_history_shape fuel alt v theta dt normalized history :
  Trajectory M fuel alt v theta dt normalized = Returned history ->
  2 <= length history /\
  (Time (initialTrajectory M alt v theta) = lit 0.0 /\
   Position (initialTrajectory M alt v theta) = (lit 0.0, alt) /\
   Velocity (initialTrajectory M alt v theta) =
     (v * Cos M (theta * Pi / lit 180.0),
      v * Sin M (theta * Pi / lit 180.0))%num) /\
  hd_error history =
    Some ((if normalized then rebase alt else fun p => p)
            (initialTrajectory M alt v theta)) /\
  exists raw,
    Trajectory M fuel alt v theta dt false = Returned raw /\
    history = (if normalized then map (rebase alt) raw else raw) /\
    forall i p, 1 <= i -> S i < length raw -> nth_error raw i = Some p ->
      (altitude p >? alt)%num = true.
Proof.
  intros Hrun. apply Trajectory_returned in Hrun.
  destruct Hrun as (n & Hn & Hlo & Hhi & ->).
  split; [|split; [|split]].
  - destruct normalized; rewrite ?length_map, length_corrected; lia.
  - repeat split.
  - unfold corrected. destruct n as [|n]; [lia|].
    destruct normalized; reflexivity.
  - exists (corrected M alt dt (initialTrajectory M alt v theta) n).
    split; [|split].
    + apply Trajectory_returned. exists n. auto.
    + destruct normalized; reflexivity.
    + intros i p Hi Hlen Hp. rewrite length_corrected in Hlen.
      rewrite nth_error_corrected in Hp by lia. injection Hp as <-.
      apply (Hlo i). lia.
Qed.

End Loop.

(** ** binary64: NaN, order, [max] and [min] *)

Module Float64Facts.
Import Float64.
Local Open Scope num_scope.

Implicit Types x y z : float.

Lemma SFltb_trans a b c :
  SFltb a b = true -> SFltb b c = true -> SFltb a c = true.
Proof. sf_cases a; sf_cases b; sf_cases c; intros H1 H2; sf_solve. Qed.

Lemma SFleb_ltb_trans a b c :
  SFleb a b = true -> SFltb b c = true -> SFltb a c = true.
Proof. sf_cases a; sf_cases b; sf_cases c; intros H1 H2; sf_solve. Qed.

Lemma SFltb_leb_trans a b c :
  SFltb a b = true -> SFleb b c = true -> SFltb a c = true.
Proof. sf_cases a; sf_cases b; sf_cases c; intros H1 H2; sf_solve. Qed.

Lemma SFleb_negb_ltb a b :
  a <> S754_nan -> b <> S754_nan -> SFleb a b = negb (SFltb b a).
Proof. sf_cases a; sf_cases b; intros H1 H2; sf_solve. Qed.

Lemma SFeqb_refl a : a <> S754_nan -> SFeqb a a = true.
Proof. sf_cases a; intros H1; sf_solve. Qed.

Lemma SFeqb_ltb a b c :
  SFeqb a c = true -> SFeqb b c = true -> SFltb a b = false.
Proof. sf_cases a; sf_cases b; sf_cases c; intros H1 H2; sf_solve. Qed.

Lemma SFeqb_ltb_l a b c : SFeqb a b = true -> SFltb a c = SFltb b c.
Proof. sf_cases a; sf_cases b; sf_cases c; intros H1; sf_solve. Qed.

Lemma SFeqb_ltb_r a b c : SFeqb a b = true -> SFltb c a = SFltb c b.
Proof. sf_cases a; sf_cases b; sf_cases c; intros H1; sf_solve. Qed.

Lemma SFmax_notNan a b : a <> S754_nan -> b <> S754_nan -> SFmax a b <> S754_nan.
Proof. sf_cases a; sf_cases b; intros H1 H2; mm_solve. Qed.

Lemma SFmin_notNan a b : a <> S754_nan -> b <> S754_nan -> SFmin a b <> S754_nan.
Proof. sf_cases a; sf_cases b; intros H1 H2; mm_solve. Qed.

Lemma SFmax_ltb a b c :
  a <> S754_nan -> b <> S754_nan -> SFltb (SFmax a b) c = SFltb a c && SFltb b c.
Proof. sf_cases a; sf_cases b; sf_cases c; intros H1 H2; mm_solve. Qed.

Lemma SFltb_min a b c :
  a <> S754_nan -> b <> S754_nan -> SFltb c (SFmin a b) = SFltb c a && SFltb c b.
Proof. sf_cases a; sf_cases b; sf_cases c; intros H1 H2; mm_solve. Qed.

Lemma Prim2SF_nan : Prim2SF nan = S754_nan.
Proof. reflexivity. Qed.

Lemma eq_nan x : Prim2SF x = S754_nan -> x = nan.
Proof. intros H. apply Prim2SF_inj. now rewrite H. Qed.

Lemma add_nan_r x : x + nan = nan.
Proof.
  apply eq_nan. prim. rewrite add_spec, Prim2SF_nan.
  now destruct (Prim2SF x).
Qed.

Lemma add_nan_l x : nan + x = nan.
Proof. apply eq_nan. prim. now rewrite add_spec, Prim2SF_nan. Qed.

Lemma sub_nan_r x : x - nan = nan.
Proof.
  apply eq_nan. prim. rewrite sub_spec, Prim2SF_nan.
  now destruct (Prim2SF x).
Qed.

Lemma sub_nan_l x : nan - x = nan.
Proof. apply eq_nan. prim. now rewrite sub_spec, Prim2SF_nan. Qed.

Lemma mul_nan_r x : x * nan = nan.
Proof.
  apply eq_nan. prim. rewrite mul_spec, Prim2SF_nan.
  now destruct (Prim2SF x).
Qed.

Lemma mul_nan_l x : nan * x = nan.
Proof. apply eq_nan. prim. now rewrite mul_spec, Prim2SF_nan. Qed.

Lemma div_nan_r x : x / nan = nan.
Proof.
  apply eq_nan. prim. rewrite div_spec, Prim2SF_nan.
  now destruct (Prim2SF x).
Qed.

Lemma div_nan_l x : nan / x = nan.
Proof. apply eq_nan. prim. now rewrite div_spec, Prim2SF_nan. Qed.

Lemma opp_nan : - nan = nan :> float.
Proof. reflexivity. Qed.

Lemma ltb_nan_l x : (nan <? x) = false.
Proof. prim. now rewrite ltb_spec. Qed.

Lemma ltb_nan_r x : (x <? nan) = false.
Proof. prim. rewrite ltb_spec, Prim2SF_nan. unfold SFltb. now destruct (Prim2SF x). Qed.

Lemma leb_nan_l x : (nan <=? x) = false.
Proof. prim. now rewrite leb_spec. Qed.

Lemma leb_nan_r x : (x <=? nan) = false.
Proof. prim. rewrite leb_spec, Prim2SF_nan. unfold SFleb. now destruct (Prim2SF x). Qed.

Create Rewrite HintDb nan.
#[export] Hint Rewrite add_nan_r add_nan_l sub_nan_r sub_nan_l mul_nan_r mul_nan_l
  div_nan_r div_nan_l opp_nan : nan.

Lemma zero_div_zero x y : isZero x -> isZero y -> x / y = nan.
Proof.
  intros [Hx|Hx] [Hy|Hy]; apply eq_nan; prim; rewrite div_spec, Hx, Hy; reflexivity.
Qed.

Lemma zero_div_nan x : x / nan = nan.
Proof. apply div_nan_r. Qed.

Section Accel.
Variable M : MathLib float.
Import trajectory.

(** Once both components of the unit velocity are NaN, so is the
    acceleration, whatever the atmosphere and the drag coefficient are. *)
Lemma accel_nan_velocity t (pos : vec2 float) : accel M t pos nan2 = nan2.
Proof.
  unfold accel, nan2. cbn [fst snd].
  destruct (simpleAtmosphere M _) as [[sigma delta] theta].
  cbn [fst snd]. autorewrite with nan. reflexivity.
Qed.

Lemma accel_zero_velocity t (pos v : vec2 float) :
  (forall z, isZero z -> Pow M z (lit 2.0) = lit 0) ->
  isZero (fst v) -> isZero (snd v) -> accel M t pos v = nan2.
Proof.
  intros Hpow H0 H1. unfold accel, nan2.
  rewrite (Hpow _ H0), (Hpow _ H1).
  replace (sqrt (lit 0.0 + lit 0 + lit 0)) with (lit 0 : float) by reflexivity.
  rewrite !zero_div_zero; try assumption; try (left; reflexivity).
  cbn [fst snd].
  destruct (simpleAtmosphere M _) as [[sigma delta] theta].
  cbn [fst snd]. autorewrite with nan. reflexivity.
Qed.

Lemma kutta_nan p h :
  accel M (Time p) (Position p) (Velocity p) = nan2 ->
  Position (baseballKutta M p h) = nan2 /\
  Velocity (baseballKutta M p h) = nan2 /\
  Acceleration (baseballKutta M p h) = nan2.
Proof.
  intros Ha. unfold baseballKutta. cbv zeta. cbn [Position Velocity Acceleration Time].
  rewrite Ha. unfold nan2. cbn [fst snd]. autorewrite with nan.
  fold nan2. rewrite accel_nan_velocity.
  repeat split; reflexivity.
Qed.

(** From a point at which [accel] gives NaN, every later point is NaN in
    position, velocity and acceleration. *)
Lemma orbit_nan p dt n :
  accel M (Time p) (Position p) (Velocity p) = nan2 ->
  Position (orbit M dt p (S n)) = nan2 /\
  Velocity (orbit M dt p (S n)) = nan2 /\
  Acceleration (orbit M dt p (S n)) = nan2.
Proof.
  intros Ha. induction n as [|n (_ & IHv & _)].
  - cbn [orbit]. now apply kutta_nan.
  - change (orbit M dt p (S (S n)))
      with (baseballKutta M (orbit M dt p (S n)) dt).
    apply kutta_nan. rewrite IHv. apply accel_nan_velocity.
Qed.

End Accel.

(** *** Order, [max] and [min] on primitive floats *)

Lemma notNan_is_nan x : notNan x <-> is_nan x = false.
Proof.
  unfold notNan, is_nan. rewrite eqb_spec. split.
  - intros H. now rewrite SFeqb_refl.
  - intros H E. rewrite E in H. discriminate.
Qed.

Lemma notNan_dec x : notNan x \/ x = nan.
Proof.
  unfold notNan. destruct (Prim2SF x) eqn:E; try (left; discriminate).
  right. now apply eq_nan.
Qed.

Lemma leb_true_notNan_l x y : (x <=? y) = true -> notNan x.
Proof.
  prim. rewrite leb_spec. unfold notNan. intros H E. rewrite E in H. discriminate.
Qed.

Lemma leb_false_ltb x y :
  notNan x -> notNan y -> (x <=? y) = false -> (y <? x) = true.
Proof.
  unfold notNan. prim. rewrite leb_spec, ltb_spec. intros Hx Hy H.
  rewrite (SFleb_negb_ltb _ _ Hx Hy) in H. now destruct (SFltb _ _).
Qed.

Lemma leb_negb_ltb x y :
  notNan x -> notNan y -> (x <=? y) = negb (y <? x).
Proof.
  unfold notNan. prim. rewrite leb_spec, ltb_spec. apply SFleb_negb_ltb.
Qed.

Lemma eqb_zero_ltb x y :
  (x ==? 0%float) = true -> (y ==? 0%float) = true -> (x <? y) = false.
Proof. prim. rewrite !eqb_spec, ltb_spec. apply SFeqb_ltb. Qed.

Lemma Prim2SF_get_sign x : get_sign x = SFget_sign (Prim2SF x).
Proof.
  unfold get_sign, SFget_sign, is_zero. rewrite ltb_spec, eqb_spec.
  change (Prim2SF zero) with pzero.
  destruct (SFeqb (Prim2SF x) pzero); [|reflexivity].
  now rewrite div_spec.
Qed.

Lemma Prim2SF_max x y :
  Prim2SF (Float64.max x y) = SFmax (Prim2SF x) (Prim2SF y).
Proof.
  unfold Float64.max, SFmax, SFis_nan, is_nan.
  rewrite !eqb_spec, ltb_spec, Prim2SF_get_sign.
  change (Prim2SF infinity) with pinf. change (Prim2SF 0%float) with pzero.
  repeat match goal with
         | |- context [if ?c then _ else _] => destruct c
         end; reflexivity.
Qed.

Lemma Prim2SF_min x y :
  Prim2SF (Float64.min x y) = SFmin (Prim2SF x) (Prim2SF y).
Proof.
  unfold Float64.min, SFmin, SFis_nan, is_nan.
  rewrite !eqb_spec, ltb_spec, Prim2SF_get_sign.
  change (Prim2SF neg_infinity) with ninf. change (Prim2SF 0%float) with pzero.
  repeat match goal with
         | |- context [if ?c then _ else _] => destruct c
         end; reflexivity.
Qed.

Lemma max_notNan x y : notNan x -> notNan y -> notNan (fmax x y).
Proof.
  unfold notNan. cbn [fmax Float64.num]. rewrite Prim2SF_max. apply SFmax_notNan.
Qed.

Lemma min_notNan x y : notNan x -> notNan y -> notNan (fmin x y).
Proof.
  unfold notNan. cbn [fmin Float64.num]. rewrite Prim2SF_min. apply SFmin_notNan.
Qed.

Lemma max_ltb_min a b c d :
  notNan a -> notNan b -> notNan c -> notNan d ->
  (fmax a c <? fmin b d) = (a <? b) && (a <? d) && ((c <? b) && (c <? d)).
Proof.
  unfold notNan. intros Ha Hb Hc Hd. cbn [fmax fmin ltb Float64.num].
  rewrite !ltb_spec, Prim2SF_max, Prim2SF_min.
  rewrite SFmax_ltb by assumption. now rewrite !SFltb_min by assumption.
Qed.

End Float64Facts.

(** ** binary64: the drag coefficient, a launch at rest, and collisions *)

Module Float64Claims.
Import Float64 Float64Facts.
Local Open Scope num_scope.

Section Claims.
Variable M : MathLib float.
Import trajectory.

Lemma lit_notNan (q : Q) :
  is_nan (lit q : float) = false -> notNan (lit q : float).
Proof. apply notNan_is_nan. Qed.

(** C4.  [cdSphere] has the five bands of the spec, each closed at its
    upper end, and 0.18 beyond the last; a Reynolds number on a boundary
    takes the formula of the band below it, so [cdSphere 1.0] is [24.0]
    exactly.  A NaN fails every test and is given 0.18 as well. *)
Theorem C4_cdSphere_bands (r : float) :
  (((r <=? lit 0) = true /\ cdSphere M r = lit 0) \/
   ((lit 0 <? r) = true /\ (r <=? lit 1.0) = true /\
    cdSphere M r = lit 24.0 / r) \/
   ((lit 1.0 <? r) = true /\ (r <=? lit 400.0) = true /\
    cdSphere M r = lit 24 * Pow M r (lit (-0.646))) \/
   ((lit 400.0 <? r) = true /\ (r <=? lit 3E5) = true /\
    cdSphere M r = lit 0.5) \/
   ((lit 3E5 <? r) = true /\ (r <=? lit 2E6) = true /\
    cdSphere M r = lit 3.66E-4 * Pow M r (lit 0.4275)) \/
   ((lit 2E6 <? r) = true /\ cdSphere M r = lit 0.18) \/
   (r = nan /\ cdSphere M r = lit 0.18)) /\
  cdSphere M (lit 0) = lit 0 /\
  cdSphere M (lit 1.0) = lit 24.0 /\
  cdSphere M (lit 400.0) = lit 24 * Pow M (lit 400.0) (lit (-0.646)) /\
  cdSphere M (lit 3E5) = lit 0.5 /\
  cdSphere M (lit 2E6) = lit 3.66E-4 * Pow M (lit 2E6) (lit 0.4275).
Proof.
  split; [|repeat split; reflexivity].
  unfold cdSphere.
  destruct (r <=? lit 0) eqn:E0; [left; auto|].
  destruct (notNan_dec r) as [Hr| ->].
  2:{ do 6 right. rewrite !leb_nan_l. auto. }
  assert (Hlt : forall q : Q, is_nan (lit q : float) = false ->
                  (r <=? lit q) = false -> (lit q <? r) = true).
  { intros q Hq. apply leb_false_ltb; [exact Hr|now apply lit_notNan]. }
  destruct (r <=? lit 1.0) eqn:E1.
  { right; left. repeat split. now apply Hlt. }
  destruct (r <=? lit 400.0) eqn:E2.
  { do 2 right; left. repeat split. now apply Hlt. }
  destruct (r <=? lit 3E5) eqn:E3.
  { do 3 right; left. repeat split. now apply Hlt. }
  destruct (r <=? lit 2E6) eqn:E4.
  { do 4 right; left. repeat split. now apply Hlt. }
  do 5 right; left. split; [now apply Hlt|reflexivity].
Qed.

(** C6.  [accel] makes no test on the speed.  When both components of the
    velocity are zero -- and [math.Pow] gives 0 for the square of a zero, as
    Go documents -- the unit velocity is 0/0 and both components of the
    acceleration are NaN; from a point with such a velocity every
    Runge-Kutta step, of any length, returns NaN in both components of
    position, velocity and acceleration.  The functions are total: no
    error value exists for them to return. *)
Theorem C6_zero_velocity_nan (t : float) (pos v : vec2 float) :
  (forall z, isZero z -> Pow M z (lit 2.0) = lit 0) ->
  isZero (fst v) -> isZero (snd v) ->
  accel M t pos v = nan2 /\
  forall (p : TrajectoryPoint float) (dt : float) (n : nat),
    Velocity p = v ->
    Position (orbit M dt p (S n)) = nan2 /\
    Velocity (orbit M dt p (S n)) = nan2 /\
    Acceleration (orbit M dt p (S n)) = nan2.
Proof.
  intros Hpow H0 H1. split; [now apply accel_zero_velocity|].
  intros p dt n Hv. apply orbit_nan. rewrite Hv.
  now apply accel_zero_velocity.
Qed.

End Claims.

(** *** Collisions *)

Lemma fold_left_flag {A : Type} (c : A -> bool) (l : list A) (b : bool) :
  fold_left (fun hit a => if c a then true else hit) l b = b || existsb c l.
Proof.
  revert b. induction l as [|a l IH]; intros b; cbn [fold_left existsb].
  - now rewrite orb_false_r.
  - rewrite IH. destruct (c a), b; reflexivity.
Qed.

Lemma lit_zero : (lit 0 : float) = 0%float.
Proof. reflexivity. Qed.

(** One projectile: the test of [detectCollision] on two rectangles none
    of whose coordinates is NaN. *)
Lemma hit_overlap (r s : pixel.Rect float) :
  realRect r -> realRect s ->
  negb (pixel.Rect_eqb (pixel.Intersect r s)
          (pixel.R (lit 0) (lit 0) (lit 0) (lit 0))) = true <->
  pixel.overlap r s.
Proof.
  intros (Ha & Ha' & Hb & Hb') (Hc & Hc' & Hd & Hd').
  destruct r as [[a a'] [b b']], s as [[c c'] [d d']].
  cbn [pixel.X pixel.Y pixel.Min pixel.Max] in *.
  unfold pixel.overlap, pixel.solid, pixel.cross, pixel.Intersect.
  cbn [pixel.X pixel.Y pixel.Min pixel.Max pixel.R pixel.V].
  unfold geb.
  rewrite (leb_negb_ltb (fmin b d) (fmax a c))
    by (apply min_notNan || apply max_notNan; assumption).
  rewrite (leb_negb_ltb (fmin b' d') (fmax a' c'))
    by (apply min_notNan || apply max_notNan; assumption).
  pose proof (max_ltb_min a b c d Ha Hb Hc Hd) as Ex.
  pose proof (max_ltb_min a' b' c' d' Ha' Hb' Hc' Hd') as Ey.
  destruct (fmax a c <? fmin b d) eqn:Tx; cbn [negb orb].
  - destruct (fmax a' c' <? fmin b' d') eqn:Ty; cbn [negb orb].
    + symmetry in Ex, Ey.
      apply andb_prop in Ex, Ey. destruct Ex as (Ex1 & Ex2), Ey as (Ey1 & Ey2).
      apply andb_prop in Ex1, Ex2, Ey1, Ey2.
      split; [intros _; tauto|intros _].
      unfold pixel.Rect_eqb, pixel.Vec_eqb.
      cbn [pixel.X pixel.Y pixel.Min pixel.Max pixel.R pixel.V].
      rewrite lit_zero.
      destruct (fmax a c ==? 0%float) eqn:Z1; [|reflexivity].
      destruct (fmin b d ==? 0%float) eqn:Z2;
        [|now rewrite !andb_false_r].
      rewrite (eqb_zero_ltb _ _ Z1 Z2) in Tx. discriminate.
    + split; [discriminate|].
      intros ((_ & Sy1) & (_ & Sy2) & (_ & _ & Cy1 & Cy2)).
      rewrite Sy1, Sy2, Cy1, Cy2 in Ey. discriminate.
  - split; [discriminate|].
    intros ((Sx1 & _) & (Sx2 & _) & (Cx1 & Cx2 & _)).
    rewrite Sx1, Sx2, Cx1, Cx2 in Ex. discriminate.
Qed.

Lemma realRect_Norm (r : pixel.Rect float) : realRect r -> realRect (pixel.Norm r).
Proof.
  intros (Ha & Ha' & Hb & Hb'). unfold realRect, pixel.Norm.
  cbn [pixel.X pixel.Y pixel.Min pixel.Max pixel.V].
  repeat split; (apply min_notNan || apply max_notNan); assumption.
Qed.

(** C5 (as amended).  For rectangles none of whose coordinates is NaN,
    [detectCollision] answers true exactly when the normalized rectangle of
    some projectile overlaps the normalized rectangle of the target: the
    region they share has a positive width and a positive height.  The two
    pairs of rectangles the spec names are a hit and a miss. *)
Theorem C5_collision_overlap :
  (forall (t : cannon.Target float) (ps : list (cannon.Projectile float)),
     realRect (cannon.trect t) ->
     Forall (fun p => realRect (cannon.rect p)) ps ->
     (cannon.detectCollision t ps = true <->
      Exists (fun p => pixel.overlap (pixel.Norm (cannon.trect t))
                         (pixel.Norm (cannon.rect p))) ps)) /\
  (forall (x : float) (q : trajectory.TrajectoryPoint float),
     cannon.detectCollision
       {| cannon.perlinx := x;
          cannon.trect := pixel.R (lit 0) (lit 0) (lit 2) (lit 2) |}
       [{| cannon.trj := q;
           cannon.rect := pixel.R (lit 1) (lit 1) (lit 3) (lit 3) |}] = true) /\
  (forall (x : float) (q : trajectory.TrajectoryPoint float),
     cannon.detectCollision
       {| cannon.perlinx := x;
          cannon.trect := pixel.R (lit 0) (lit 0) (lit 1) (lit 1) |}
       [{| cannon.trj := q;
           cannon.rect := pixel.R (lit 5) (lit 5) (lit 6) (lit 6) |}] = false).
Proof.
  split; [|split; intros x q; reflexivity].
  intros t ps Ht Hps. unfold cannon.detectCollision.
  rewrite fold_left_flag. cbn [orb].
  rewrite existsb_exists, Exists_exists.
  split; intros (p & Hin & Hp); exists p; (split; [exact Hin|]).
  - apply hit_overlap in Hp; [exact Hp| |]; apply realRect_Norm; [exact Ht|].
    rewrite Forall_forall in Hps. now apply Hps.
  - apply hit_overlap; [| |exact Hp]; apply realRect_Norm; [exact Ht|].
    rewrite Forall_forall in Hps. now apply Hps.
Qed.

End Float64Claims.

(** ** Exact arithmetic: the Runge-Kutta step, the times and the last
    altitude of a run, and the rectangle of a projectile *)

Module RealClaims.
Import trajectory.
Local Open Scope R_scope.

Lemma gtb_true (x y : R) : gtb x y = true <-> y < x.
Proof.
  unfold gtb. real. unfold Real.lt_b. destruct (Rlt_dec y x); split; auto; discriminate.
Qed.

Lemma gtb_false (x y : R) : gtb x y = false <-> x <= y.
Proof.
  unfold gtb. real. unfold Real.lt_b.
  destruct (Rlt_dec y x); split; auto; try discriminate; lra.
Qed.

Section Claims.
Variable M : MathLib R.

(** In exact arithmetic [baseballKutta] is the classical step. *)
Lemma kutta_classic (p : TrajectoryPoint R) (h : R) :
  baseballKutta M p h = Real.rk4_classic M p h.
Proof.
  destruct p as [t [x0 x1] [v0 v1] a].
  unfold baseballKutta, Real.rk4_classic, Real.slope, Real.along, Real.weighted.
  cbv zeta. cbn [Time Position Velocity Acceleration fst snd].
  real. lits.
  set (a1 := accel M t (x0, x1) (v0, v1)).
  replace (accel M (t + h / (20 * / 10))
             (x0 + h * v0 / (20 * / 10), x1 + h * v1 / (20 * / 10))
             (v0 + h * fst a1 / (20 * / 10), v1 + h * snd a1 / (20 * / 10)))
    with (accel M (t + h / 2)
            (x0 + h / 2 * v0, x1 + h / 2 * v1)
            (v0 + h / 2 * fst a1, v1 + h / 2 * snd a1))
    by (f_equal; [|f_equal|f_equal]; field).
  set (a2 := accel M (t + h / 2) _ _).
  replace (accel M (t + h / (20 * / 10))
             (x0 + h * (v0 + h * fst a1 / (20 * / 10)) / (20 * / 10),
              x1 + h * (v1 + h * snd a1 / (20 * / 10)) / (20 * / 10))
             (v0 + h * fst a2 / (20 * / 10), v1 + h * snd a2 / (20 * / 10)))
    with (accel M (t + h / 2)
            (x0 + h / 2 * (v0 + h / 2 * fst a1),
             x1 + h / 2 * (v1 + h / 2 * snd a1))
            (v0 + h / 2 * fst a2, v1 + h / 2 * snd a2))
    by (f_equal; [|f_equal|f_equal]; field).
  set (a3 := accel M (t + h / 2) _ _).
  replace (accel M (t + h)
             (x0 + h * (v0 + h * fst a2 / (20 * / 10)),
              x1 + h * (v1 + h * snd a2 / (20 * / 10)))
             (v0 + h * fst a3, v1 + h * snd a3))
    with (accel M (t + h)
            (x0 + h * (v0 + h / 2 * fst a2), x1 + h * (v1 + h / 2 * snd a2))
            (v0 + h * fst a3, v1 + h * snd a3))
    by (f_equal; f_equal; field).
  set (a4 := accel M (t + h) _ _).
  assert (Epos :
    (x0 + (h * v0 + h * (v0 + h * fst a1 / (20 * / 10)) +
           h * (v0 + h * fst a1 / (20 * / 10)) +
           h * (v0 + h * fst a2 / (20 * / 10)) +
           h * (v0 + h * fst a2 / (20 * / 10)) +
           h * (v0 + h * fst a3)) / (60 * / 10),
     x1 + (h * v1 + h * (v1 + h * snd a1 / (20 * / 10)) +
           h * (v1 + h * snd a1 / (20 * / 10)) +
           h * (v1 + h * snd a2 / (20 * / 10)) +
           h * (v1 + h * snd a2 / (20 * / 10)) +
           h * (v1 + h * snd a3)) / (60 * / 10)) =
    (x0 + h / 6 * (v0 + 2 * (v0 + h / 2 * fst a1) +
                   2 * (v0 + h / 2 * fst a2) + (v0 + h * fst a3)),
     x1 + h / 6 * (v1 + 2 * (v1 + h / 2 * snd a1) +
                   2 * (v1 + h / 2 * snd a2) + (v1 + h * snd a3))))
    by (f_equal; field).
  assert (Evel :
    (v0 + (h * fst a1 + h * fst a2 + h * fst a2 + h * fst a3 + h * fst a3 +
           h * fst a4) / (60 * / 10),
     v1 + (h * snd a1 + h * snd a2 + h * snd a2 + h * snd a3 + h * snd a3 +
           h * snd a4) / (60 * / 10)) =
    (v0 + h / 6 * (fst a1 + 2 * fst a2 + 2 * fst a3 + fst a4),
     v1 + h / 6 * (snd a1 + 2 * snd a2 + 2 * snd a3 + snd a4)))
    by (f_equal; field).
  rewrite Epos, Evel. reflexivity.
Qed.





Lemma boxed_fire alt angle v prj :
  Real.boxed alt (cannon.fireProjectile M prj alt angle v).
Proof.
  unfold Real.boxed, cannon.fireProjectile, pixel.R, pixel.V.
  cbn [cannon.rect cannon.trj Position fst snd]. real. lits.
  f_equal; f_equal; lra.
Qed.

Lemma boxed_update alt p dt :
  Real.boxed alt p -> Real.boxed alt (cannon.updateTrajectory M p dt).
Proof.
  unfold Real.boxed, cannon.updateTrajectory. cbn [cannon.rect cannon.trj].
  intros ->. unfold pixel.Moved, pixel.Add, pixel.R, pixel.V.
  cbn [pixel.X pixel.Y pixel.Min pixel.Max]. real.
  f_equal; f_equal; lra.
Qed.

Lemma boxed_flight alt angle v dts prj :
  Real.boxed alt (cannon.flight M alt angle v dts prj).
Proof.
  unfold cannon.flight.
  generalize (boxed_fire alt angle v prj).
  generalize (cannon.fireProjectile M prj alt angle v).
  induction dts as [|dt dts IH]; intros p Hp; cbn [fold_left]; [exact Hp|].
  apply IH. now apply boxed_update.
Qed.

(** C8 (as amended).  In exact arithmetic, right after [fireProjectile]
    and after any number of calls of [updateTrajectory], the centre of the
    rectangle is the position of the trajectory point with the launch
    altitude taken off its second coordinate: it is the position itself
    exactly when the projectile was fired from altitude 0.  [fireProjectile]
    sets the rectangle to the box from (-1, -1) to (1, 1), centred at (0, 0),
    and [updateTrajectory] moves it by the difference between the new and the
    old position. *)
Theorem C8_rectangle_follows alt angle v dts prj :
  pixel.Center (cannon.rect (cannon.flight M alt angle v dts prj)) =
    pixel.V (fst (Position (cannon.trj (cannon.flight M alt angle v dts prj))))
            (snd (Position (cannon.trj (cannon.flight M alt angle v dts prj)))
             - alt) /\
  cannon.rect (cannon.fireProjectile M prj alt angle v) =
    pixel.R (-1) (-1) 1 1 /\
  pixel.Center (cannon.rect (cannon.fireProjectile M prj alt angle v)) =
    pixel.V 0 0 /\
  (forall (p : cannon.Projectile R) (dt : R),
     cannon.rect (cannon.updateTrajectory M p dt) =
     pixel.Moved (cannon.rect p)
       (pixel.V (fst (Position (cannon.trj (cannon.updateTrajectory M p dt)))
                 - fst (Position (cannon.trj p)))
                (snd (Position (cannon.trj (cannon.updateTrajectory M p dt)))
                 - snd (Position (cannon.trj p))))).
Proof.
  split; [|split; [|split]].
  - rewrite (boxed_flight alt angle v dts prj).
    unfold pixel.Center, pixel.Lerp, pixel.Add, pixel.Scaled, pixel.R, pixel.V.
    cbn [pixel.X pixel.Y pixel.Min pixel.Max]. real. lits.
    f_equal; lra.
  - unfold cannon.fireProjectile, pixel.R, pixel.V. cbn [cannon.rect]. real. lits.
    f_equal; f_equal; lra.
  - unfold cannon.fireProjectile, pixel.Center, pixel.Lerp, pixel.Add,
      pixel.Scaled, pixel.R, pixel.V.
    cbn [cannon.rect pixel.X pixel.Y pixel.Min pixel.Max]. real. lits.
    f_equal; lra.
  - intros p dt. reflexivity.
Qed.

End Claims.

(** C3.  The step [baseballKutta] takes is the classical fourth-order
    Runge-Kutta step on (position, velocity) with slope (velocity,
    acceleration).  In exact arithmetic the two are equal: the acceleration
    is evaluated at the start, at the two midpoints and at the end point,
    and the increments are summed with weights 1, 2, 2, 1 over 6.  In every
    arithmetic, binary64 included, the time of the result is [Time p + h] and
    its acceleration is a fresh call of [accel] at the new time, position
    and velocity. *)
Theorem C3_rk4_is_classic :
  (forall (M : MathLib R) (p : TrajectoryPoint R) (h : R),
     baseballKutta M p h = Real.rk4_classic M p h) /\
  (forall (F : Type) (N : Num F) (M : MathLib F)
          (p : TrajectoryPoint F) (h : F),
     Time (baseballKutta M p h) = (Time p + h)%num /\
     Acceleration (baseballKutta M p h) =
       accel M (Time p + h)%num
         (Position (baseballKutta M p h)) (Velocity (baseballKutta M p h))).
Proof.
  split.
  - exact kutta_classic.
  - intros F N M p h. split; reflexivity.
Qed.

(** *** A run in the vacuum *)

Lemma accel_vacuum t (pos v : vec2 R) :
  accel Real.vacuum t pos v = (0, - g).
Proof.
  unfold accel, simpleAtmosphere, Real.vacuum. cbn [Pow Exp]. real.
  assert (Hsigma : forall theta delta : R, delta = 0 -> delta / theta * rhozero = 0).
  { intros theta delta ->. unfold Rdiv. now rewrite !Rmult_0_l. }
  assert (Hdrag : forall cd vsq u d s : R, d = 0 ->
            - (cd * (Q2R 0.5 * d * vsq) * s) * u / mass - g * Q2R 1.0 = - g /\
            - (cd * (Q2R 0.5 * d * vsq) * s) * u / mass - g * Q2R 0.0 = 0).
  { intros cd vsq u d s ->. unfold Rdiv. lits. split; nra. }
  destruct (Real.lt_b _ _).
  - destruct (Req_dec_T (Q2R 34.163195 / Q2R 6.5) 2) as [E|_].
    { exfalso. lits. lra. }
    cbn [fst snd].
    match goal with
    | |- (- (?cd * (_ * ?d * ?vsq) * ?s) * ?u0 / _ - _,
          - (_ * _ * _) * ?u1 / _ - _) = _ =>
        assert (Hd : d = 0) by (apply Hsigma; reflexivity);
        destruct (Hdrag cd vsq u0 d s Hd) as (_ & ->);
        destruct (Hdrag cd vsq u1 d s Hd) as (-> & _)
    end.
    reflexivity.
  - cbn [fst snd].
    match goal with
    | |- (- (?cd * (_ * ?d * ?vsq) * ?s) * ?u0 / _ - _,
          - (_ * _ * _) * ?u1 / _ - _) = _ =>
        assert (Hd : d = 0) by (apply Hsigma; lra);
        destruct (Hdrag cd vsq u0 d s Hd) as (_ & ->);
        destruct (Hdrag cd vsq u1 d s Hd) as (-> & _)
    end.
    reflexivity.
Qed.

(** In the vacuum a step is the parabola of free fall. *)
Lemma kutta_vacuum (p : TrajectoryPoint R) (h : R) :
  Position (baseballKutta Real.vacuum p h) =
    (fst (Position p) + h * fst (Velocity p),
     snd (Position p) + h * snd (Velocity p) - g * h * h / 2) /\
  Velocity (baseballKutta Real.vacuum p h) =
    (fst (Velocity p), snd (Velocity p) - g * h).
Proof.
  unfold baseballKutta. cbv zeta. cbn [Position Velocity].
  rewrite !accel_vacuum. cbn [fst snd]. real. lits.
  split; f_equal; field.
Qed.


Lemma vacuumSeed_velocity : Velocity Real.vacuumSeed = (0, g).
Proof.
  unfold Real.vacuumSeed, initialTrajectory, Real.vacuum. cbn [Velocity Cos Sin]. real.
  replace (Q2R 90 * PI / Q2R 180.0) with (PI / 2) by (lits; field).
  rewrite cos_PI2, sin_PI2. unfold g. real. f_equal; lra.
Qed.

Lemma vacuum_aloft_1 : aloft Real.vacuum (lit 0) (lit 1) Real.vacuumSeed 1 = true.
Proof.
  apply gtb_true. unfold altitude. cbn [orbit].
  destruct (kutta_vacuum Real.vacuumSeed (lit 1)) as (-> & _).
  rewrite vacuumSeed_velocity. cbn [fst snd Real.vacuumSeed initialTrajectory Position].
  unfold g. real. lits. lra.
Qed.

Lemma vacuum_aloft_2 : aloft Real.vacuum (lit 0) (lit 1) Real.vacuumSeed 2 = false.
Proof.
  apply gtb_false. unfold altitude. cbn [orbit].
  destruct (kutta_vacuum (baseballKutta Real.vacuum Real.vacuumSeed (lit 1)) (lit 1))
    as (-> & _).
  destruct (kutta_vacuum Real.vacuumSeed (lit 1)) as (-> & ->).
  rewrite vacuumSeed_velocity. cbn [fst snd Real.vacuumSeed initialTrajectory Position].
  unfold g. real. lits. lra.
Qed.



End RealClaims.

(** ** binary64: runs of the model *)

Module Float64Runs.
Import trajectory Float64 Float64Facts.
Local Open Scope num_scope.

Lemma refMath_pow_zero (z : float) :
  isZero z -> Pow RefMath.refMath z (lit 2.0) = lit 0.
Proof.
  intros [H|H].
  - replace z with 0%float by (apply Prim2SF_inj; now rewrite H). reflexivity.
  - replace z with (-0)%float by (apply Prim2SF_inj; now rewrite H). reflexivity.
Qed.

Lemma shot_run :
  Trajectory RefMath.refMath 1000 (lit 0) (lit 100) (lit 40) (lit 0.1) false =
  Returned Samples.shot.
Proof. vm_compute. reflexivity. Qed.

Lemma denver_run :
  Trajectory RefMath.refMath 1000 (lit 1609) (lit 100) (lit 40) (lit 0.1) true =
  Returned Samples.denver.
Proof. vm_compute. reflexivity. Qed.



Lemma atRest_run :
  Trajectory RefMath.refMath 1000 (lit 0) (lit 0) (lit 45) (lit 0.1) false =
  Returned Samples.atRest.
Proof. vm_compute. reflexivity. Qed.

(** C1, as the claim states it, fails.  The last point of the run of the
    spec's scenario carries an interpolated acceleration that is not the
    one [accel] gives for its time, position and velocity: the first
    components are more than 1e-6 apart, a million times the rounding of
    binary64.  And the first point of the normalized run from 1609 m carries
    the acceleration of 1609 m at altitude 0. *)
Lemma C1_last_point_not_cached :
  (exists p, nth_error Samples.shot (length Samples.shot - 1) = Some p /\
     Trajectory RefMath.refMath 1000 (lit 0) (lit 100) (lit 40) (lit 0.1) false
       = Returned Samples.shot /\
     ~ cacheInv RefMath.refMath p /\
     (lit 1e-6 <?
      abs (fst (Acceleration p) -
           fst (accel RefMath.refMath (Time p) (Position p) (Velocity p))))
     = true) /\
  (exists p, nth_error Samples.denver 0 = Some p /\
     Trajectory RefMath.refMath 1000 (lit 1609) (lit 100) (lit 40) (lit 0.1) true
       = Returned Samples.denver /\
     ~ cacheInv RefMath.refMath p).
Proof.
  split; eexists; (split; [vm_compute; reflexivity|]);
    (split; [apply shot_run || apply denver_run|]); [split|].
  - unfold cacheInv; intros H; apply (f_equal fst) in H; revert H; differ.
  - vm_compute. reflexivity.
  - unfold cacheInv; intros H; apply (f_equal fst) in H; revert H; differ.
Qed.

(** The third conjunct of C1 on the run of the spec's scenario. *)
Lemma C1_witness :
  Trajectory RefMath.refMath 1000 (lit 0) (lit 100) (lit 40) (lit 0.1) false =
    Returned Samples.shot /\
  forall p, nth_error Samples.shot 60 = Some p -> cacheInv RefMath.refMath p.
Proof.
  split; [exact shot_run|].
  intros p Hp.
  refine (proj1 (proj2 (proj2 (C1_cache_invariant RefMath.refMath)))
            1000 (lit 0) (lit 100) (lit 40) (lit 0.1) Samples.shot 60 p
            shot_run _ Hp).
  vm_compute. lia.
Defined.


(** C5, as the claim states it, fails: the squares from (-1, -1) to
    (0, 0) and from (0, 0) to (1, 1) have the point (0, 0) in common, and
    [detectCollision] reports no hit.  What the two share is the rectangle
    from (0, 0) to (0, 0), the very value [detectCollision] reads as "no
    intersection". *)
Lemma C5_touching_squares_miss :
  cannon.detectCollision
    (Samples.targetAt (pixel.R (- lit 1) (- lit 1) (lit 0) (lit 0)))
    [Samples.projectileAt (pixel.R (lit 0) (lit 0) (lit 1) (lit 1))] = false /\
  pixel.meet (F := float)
    (pixel.Norm (pixel.R (- lit 1) (- lit 1) (lit 0) (lit 0)))
    (pixel.Norm (pixel.R (lit 0) (lit 0) (lit 1) (lit 1))).
Proof.
  split; [reflexivity|].
  exists (pixel.V (lit 0 : float) (lit 0)). split; repeat split; reflexivity.
Qed.

(** C5 on the squares from (0, 0) to (2, 2) and from (1, 1) to (3, 3). *)
Lemma C5_witness :
  realRect (pixel.R (lit 0) (lit 0) (lit 2) (lit 2)) /\
  Forall (fun p => realRect (cannon.rect p))
    [Samples.projectileAt (pixel.R (lit 1) (lit 1) (lit 3) (lit 3))] /\
  (cannon.detectCollision
     (Samples.targetAt (pixel.R (lit 0) (lit 0) (lit 2) (lit 2)))
     [Samples.projectileAt (pixel.R (lit 1) (lit 1) (lit 3) (lit 3))] = true <->
   Exists (fun p =>
             pixel.overlap
               (pixel.Norm (pixel.R (lit 0) (lit 0) (lit 2) (lit 2)))
               (pixel.Norm (cannon.rect p)))
     [Samples.projectileAt (pixel.R (lit 1) (lit 1) (lit 3) (lit 3))]).
Proof.
  assert (H1 : realRect (pixel.R (lit 0) (lit 0) (lit 2) (lit 2)))
    by (repeat split; vm_compute; discriminate).
  assert (H2 : Forall (fun p => realRect (cannon.rect p))
            [Samples.projectileAt (pixel.R (lit 1) (lit 1) (lit 3) (lit 3))])
    by (repeat constructor; vm_compute; discriminate).
  split; [exact H1|]. split; [exact H2|].
  exact (proj1 Float64Claims.C5_collision_overlap
           (Samples.targetAt (pixel.R (lit 0) (lit 0) (lit 2) (lit 2)))
           [Samples.projectileAt (pixel.R (lit 1) (lit 1) (lit 3) (lit 3))]
           H1 H2).
Defined.

(** C6 with the reference [math] library, on the velocity (+0, -0). *)
Lemma C6_witness :
  (forall z, isZero z -> Pow RefMath.refMath z (lit 2.0) = lit 0) /\
  isZero 0%float /\ isZero (-0)%float /\
  accel RefMath.refMath (lit 0) (lit 0, lit 10) (0%float, (-0)%float) = nan2 /\
  forall (p : TrajectoryPoint float) (dt : float) (n : nat),
    Velocity p = (0%float, (-0)%float) ->
    Position (orbit RefMath.refMath dt p (S n)) = nan2 /\
    Velocity (orbit RefMath.refMath dt p (S n)) = nan2 /\
    Acceleration (orbit RefMath.refMath dt p (S n)) = nan2.
Proof.
  assert (H0 : isZero 0%float) by (left; reflexivity).
  assert (H1 : isZero (-0)%float) by (right; reflexivity).
  split; [exact refMath_pow_zero|]. split; [exact H0|]. split; [exact H1|].
  exact (Float64Claims.C6_zero_velocity_nan RefMath.refMath (lit 0)
           (lit 0, lit 10) (0%float, (-0)%float) refMath_pow_zero H0 H1).
Defined.

(** C7, as the claim states it, fails: a launch at speed 0 makes every
    later point NaN; no such point has an altitude less than or equal to the
    initial one, and the call returns after one round, because the loop test
    [NaN > 0] is false. *)
Lemma C7_returns_without_crossing :
  Trajectory RefMath.refMath 1 (lit 0) (lit 0) (lit 45) (lit 0.1) false =
    Returned Samples.atRest /\
  forall n, 1 <= n ->
    (altitude (orbit RefMath.refMath (lit 0.1)
                 (initialTrajectory RefMath.refMath (lit 0) (lit 0) (lit 45)) n)
     <=? lit 0) = false.
Proof.
  split; [vm_compute; reflexivity|].
  intros [|n] Hn; [lia|]. unfold altitude.
  destruct (orbit_nan RefMath.refMath
              (initialTrajectory RefMath.refMath (lit 0) (lit 0) (lit 45))
              (lit 0.1) n) as (-> & _); [vm_compute; reflexivity|].
  apply leb_nan_l.
Qed.

(** C7 on the run of the spec's scenario: the test fails on point 127,
    so the call returns. *)
Lemma C7_witness :
  (exists n, 1 <= n /\
     aloft RefMath.refMath (lit 0) (lit 0.1)
       (initialTrajectory RefMath.refMath (lit 0) (lit 100) (lit 40)) n = false) /\
  exists fuel history,
    Trajectory RefMath.refMath fuel (lit 0) (lit 100) (lit 40) (lit 0.1) false =
    Returned history.
Proof.
  assert (H : exists n, 1 <= n /\
     aloft RefMath.refMath (lit 0) (lit 0.1)
       (initialTrajectory RefMath.refMath (lit 0) (lit 100) (lit 40)) n = false).
  { exists 127. split; [lia|]. vm_compute. reflexivity. }
  split; [exact H|].
  exact (proj2 (proj1 (C7_termination RefMath.refMath
                         (lit 0) (lit 100) (lit 40) (lit 0.1) false)) H).
Defined.

(** C8, as the claim states it, fails.  Fired from 1609 m, whatever the
    [math] library, the rectangle is centred at (0, 0) and the position is
    (0, 1609).  And in binary64 the two drift apart even from altitude 0:
    after seven frames of the program's first shot the first coordinates
    differ. *)
Lemma C8_centre_is_not_position :
  ~ (exists M : MathLib float,
       pixel.Center
         (cannon.rect (cannon.fireProjectile M cannon.zeroProjectile
                         (lit 1609) (lit 40) (lit 100))) =
       pixel.V
         (fst (Position (cannon.trj
            (cannon.fireProjectile M cannon.zeroProjectile
               (lit 1609) (lit 40) (lit 100)))))
         (snd (Position (cannon.trj
            (cannon.fireProjectile M cannon.zeroProjectile
               (lit 1609) (lit 40) (lit 100)))))) /\
  cannon.flight RefMath.refMath (lit 0) (lit 90) (lit 90)
    (repeat (lit 0.13) 7) cannon.zeroProjectile = Samples.upward /\
  pixel.X (pixel.Center (cannon.rect Samples.upward)) <>
  fst (Position (cannon.trj Samples.upward)).
Proof.
  split; [|split].
  - intros (M & H). apply (f_equal pixel.Y) in H. revert H. differ.
  - vm_compute. reflexivity.
  - differ.
Qed.

(** C9, as the claim states it, fails on a normalized run from 1609 m:
    the sixth point of the batch run lies 1609 m below the projectile
    advanced five times. *)
Lemma C9_normalized_run_differs :
  Trajectory RefMath.refMath 1000 (lit 1609) (lit 100) (lit 40) (lit 0.1) true =
    Returned Samples.denver /\
  6 < length Samples.denver /\
  exists p, nth_error Samples.denver 5 = Some p /\
    snd (Position p) <>
    snd (Position (cannon.trj
           (cannon.flight RefMath.refMath (lit 1609) (lit 40) (lit 100)
              (repeat (lit 0.1) 5) cannon.zeroProjectile))).
Proof.
  split; [exact denver_run|]. split; [vm_compute; lia|].
  eexists. split; [vm_compute; reflexivity|]. differ.
Qed.

(** C9 on the sixth point of a normalized run from 1609 m. *)
Lemma C9_witness :
  Trajectory RefMath.refMath 1000 (lit 1609) (lit 100) (lit 40) (lit 0.1) true =
    Returned Samples.denver /\
  6 < length Samples.denver /\
  nth_error Samples.denver 5 =
  Some (rebase (lit 1609)
          (cannon.trj
             (cannon.flight RefMath.refMath (lit 1609) (lit 40) (lit 100)
                (repeat (lit 0.1) 5) cannon.zeroProjectile))).
Proof.
  assert (H : 6 < length Samples.denver) by (vm_compute; lia).
  split; [exact denver_run|]. split; [exact H|].
  exact (C9_live_matches_batch RefMath.refMath 1000 (lit 1609) (lit 100)
           (lit 40) (lit 0.1) true Samples.denver 5 cannon.zeroProjectile
           denver_run H).
Defined.

(** C10, as the claim states it, fails on a normalized run from 1609 m:
    the first point returned is at altitude 0, the seed point at 1609 m. *)
Lemma C10_first_point_is_rebased :
  Trajectory RefMath.refMath 1000 (lit 1609) (lit 100) (lit 40) (lit 0.1) true =
    Returned Samples.denver /\
  exists p, hd_error Samples.denver = Some p /\
    snd (Position p) <>
    snd (Position (initialTrajectory RefMath.refMath
                     (lit 1609) (lit 100) (lit 40))).
Proof.
  split; [exact denver_run|].
  eexists. split; [vm_compute; reflexivity|]. differ.
Qed.

(** C10 on a normalized run from 1609 m. *)
Lemma C10_witness :
  Trajectory RefMath.refMath 1000 (lit 1609) (lit 100) (lit 40) (lit 0.1) true =
    Returned Samples.denver /\
  2 <= length Samples.denver /\
  (Time (initialTrajectory RefMath.refMath (lit 1609) (lit 100) (lit 40)) =
     lit 0.0 /\
   Position (initialTrajectory RefMath.refMath (lit 1609) (lit 100) (lit 40)) =
     (lit 0.0, lit 1609) /\
   Velocity (initialTrajectory RefMath.refMath (lit 1609) (lit 100) (lit 40)) =
     (lit 100 * Cos RefMath.refMath (lit 40 * Pi / lit 180.0),
      lit 100 * Sin RefMath.refMath (lit 40 * Pi / lit 180.0))) /\
  hd_error Samples.denver =
    Some (rebase (lit 1609)
            (initialTrajectory RefMath.refMath (lit 1609) (lit 100) (lit 40))) /\
  exists raw,
    Trajectory RefMath.refMath 1000 (lit 1609) (lit 100) (lit 40) (lit 0.1) false
      = Returned raw /\
    Samples.denver = map (rebase (lit 1609)) raw /\
    forall i p, 1 <= i -> S i < length raw -> nth_error raw i = Some p ->
      (altitude p >? lit 1609) = true.
Proof.
  split; [exact denver_run|].
  exact (C10_history_shape RefMath.refMath 1000 (lit 1609) (lit 100) (lit 40)
           (lit 0.1) true Samples.denver denver_run).
Defined.

End Float64Runs.

(** * Further properties of the code *)

(** ** The viewer, the game loop and the collision test, for every
    arithmetic *)

Section ViewerFacts.
Context {F : Type} {N : Num F}.
Variable M : MathLib F.
Import trajectory viewer.

Lemma bind_returned {A B : Type} (o : outcome A) (k : A -> outcome B) b :
  bind o k = Returned b <-> exists a, o = Returned a /\ k a = Returned b.
Proof.
  destruct o; cbn; split; try discriminate.
  - intros H. eauto.
  - now intros (a' & [= ->] & H).
  - intros (? & ? & ?). discriminate.
  - intros (? & ? & ?). discriminate.
Qed.

Lemma bind_panicked {A B : Type} (o : outcome A) (k : A -> outcome B) :
  bind o k = Panicked <->
  o = Panicked \/ exists a, o = Returned a /\ k a = Panicked.
Proof.
  destruct o; cbn; split; try discriminate; auto.
  - intros H. right. eauto.
  - intros [H|(a' & [= ->] & H)]; [discriminate|exact H].
  - intros [H|(? & ? & ?)]; discriminate.
Qed.

Lemma doCalc_length fuel alt angle v history :
  doCalc M fuel alt angle v = Returned history -> 2 <= length history.
Proof.
  unfold doCalc. intros H. apply Trajectory_returned in H.
  destruct H as (n & Hn & _ & _ & ->).
  rewrite length_map, length_corrected. lia.
Qed.

Lemma doCalc_no_panic fuel alt angle v : doCalc M fuel alt angle v <> Panicked.
Proof. apply Trajectory_no_panic. Qed.

Lemma pressed_playable fuel key change s s' :
  (forall s, trj (change s) = trj s /\ newtrj (change s) = newtrj s /\
             inc (change s) = inc s) ->
  playable s -> pressed M fuel key change s = Returned s' -> playable s'.
Proof.
  intros Hc (Hi & Ht). unfold pressed. destruct key.
  - intros H. apply bind_returned in H. destruct H as (h & Hh & [= <-]).
    destruct (Hc s) as (E1 & E2 & E3).
    split; cbn [trj inc newtrj].
    + now rewrite E1, E3.
    + intros t [= <-]. apply doCalc_length in Hh. lia.
  - intros [= <-]. now split.
Qed.

Lemma pressed_no_panic fuel key change s :
  pressed M fuel key change s <> Panicked.
Proof.
  unfold pressed. destruct key; [|discriminate].
  intros H. apply bind_panicked in H.
  destruct H as [H|(h & _ & H)]; [|discriminate].
  now apply doCalc_no_panic in H.
Qed.

Lemma frame_playable fuel k s s' :
  playable s -> frame M fuel k s = Returned s' -> playable s'.
Proof.
  intros (Hi & Ht). unfold frame.
  destruct (nth_error (trj s) (inc s)) eqn:E; [|discriminate].
  set (s1 := if (_ <? _)%Z then _ else _).
  assert (H1 : playable s1).
  { subst s1. destruct (Z.ltb_spec (Z.of_nat (length (trj s)) - 1)
                          (Z.of_nat (S (inc s)))).
    - destruct (newtrj s) eqn:En; split; cbn [trj inc newtrj];
        try discriminate; try lia.
      now apply Ht.
    - split; cbn [trj inc newtrj]; [lia|exact Ht]. }
  clearbody s1. intros H.
  apply bind_returned in H. destruct H as (s2 & H2 & H).
  apply bind_returned in H. destruct H as (s3 & H3 & H).
  apply bind_returned in H. destruct H as (s4 & H4 & H).
  apply pressed_playable in H2; [|now intros|exact H1].
  apply pressed_playable in H3; [|now intros|exact H2].
  apply pressed_playable in H4; [|now intros|exact H3].
  apply pressed_playable in H; [exact H|now intros|exact H4].
Qed.

Lemma frame_no_panic fuel k s : playable s -> frame M fuel k s <> Panicked.
Proof.
  intros (Hi & Ht). unfold frame.
  destruct (nth_error (trj s) (inc s)) eqn:E.
  2:{ apply nth_error_None in E. lia. }
  set (s1 := if (_ <? _)%Z then _ else _). clearbody s1.
  intros H.
  apply bind_panicked in H. destruct H as [H|(s2 & _ & H)];
    [now apply pressed_no_panic in H|].
  apply bind_panicked in H. destruct H as [H|(s3 & _ & H)];
    [now apply pressed_no_panic in H|].
  apply bind_panicked in H. destruct H as [H|(s4 & _ & H)];
    [now apply pressed_no_panic in H|].
  now apply pressed_no_panic in H.
Qed.

Lemma frames_playable fuel ks : forall s,
  playable s ->
  frames M fuel ks s <> Panicked /\
  forall s', frames M fuel ks s = Returned s' -> playable s'.
Proof.
  induction ks as [|k ks IH]; intros s Hs; cbn [frames].
  - split; [discriminate|]. now intros s' [= <-].
  - split.
    + intros H. apply bind_panicked in H. destruct H as [H|(s1 & H1 & H)].
      * now apply frame_no_panic in H.
      * apply frame_playable in H1; [|exact Hs]. now apply IH in H.
    + intros s' H. apply bind_returned in H. destruct H as (s1 & H1 & H).
      apply frame_playable in H1; [|exact Hs]. now apply (IH s1).
Qed.

Lemma start_playable fuel s : start M fuel = Returned s -> playable s.
Proof.
  unfold start. intros H. apply bind_returned in H.
  destruct H as (h & Hh & [= <-]). apply doCalc_length in Hh.
  split; cbn [trj inc newtrj]; [lia|discriminate].
Qed.

(** X16.  The index of the viewer never leaves the slice it plays:
    whatever the keys, frame after frame, [trj[inc]] exists, and no frame
    panics. *)
Theorem viewer_index_in_range fuel ks :
  run M fuel ks <> Panicked /\
  forall s, run M fuel ks = Returned s -> inc s < length (trj s).
Proof.
  unfold run. split.
  - intros H. apply bind_panicked in H. destruct H as [H|(s0 & H0 & H)].
    + unfold start in H. apply bind_panicked in H.
      destruct H as [H|(h & _ & H)]; [|discriminate].
      now apply doCalc_no_panic in H.
    + apply start_playable in H0. now apply (frames_playable fuel ks s0).
  - intros s H. apply bind_returned in H. destruct H as (s0 & H0 & H).
    apply start_playable in H0.
    now apply (frames_playable fuel ks s0 H0).
Qed.

Lemma pressed_keeps fuel key change s s' :
  (forall s, trj (change s) = trj s /\ newtrj (change s) = newtrj s /\
             inc (change s) = inc s) ->
  pressed M fuel key change s = Returned s' ->
  trj s' = trj s /\ inc s' = inc s.
Proof.
  intros Hc. unfold pressed. destruct key.
  - intros H. apply bind_returned in H. destruct H as (h & Hh & [= <-]).
    destruct (Hc s) as (E1 & E2 & E3). now split.
  - intros [= <-]. now split.
Qed.

(** X17.  A slice computed while another plays waits for the end of that
    one: a frame that does not wrap leaves [trj] alone and moves [inc] on by
    1, whatever the keys; the frame that draws the last point goes back to
    index 0, of the waiting slice when there is one. *)
Theorem viewer_swaps_at_wrap fuel k s s' :
  frame M fuel k s = Returned s' ->
  (S (inc s) < length (trj s) -> trj s' = trj s /\ inc s' = S (inc s)) /\
  (S (inc s) = length (trj s) ->
   inc s' = 0 /\
   trj s' = match newtrj s with Some t => t | None => trj s end).
Proof.
  unfold frame.
  destruct (nth_error (trj s) (inc s)) eqn:E; [|discriminate].
  set (s1 := if (_ <? _)%Z then _ else _).
  intros H.
  apply bind_returned in H. destruct H as (s2 & H2 & H).
  apply bind_returned in H. destruct H as (s3 & H3 & H).
  apply bind_returned in H. destruct H as (s4 & H4 & H).
  apply pressed_keeps in H2; [|now intros].
  apply pressed_keeps in H3; [|now intros].
  apply pressed_keeps in H4; [|now intros].
  apply pressed_keeps in H; [|now intros].
  destruct H as (-> & ->), H4 as (-> & ->), H3 as (-> & ->), H2 as (-> & ->).
  subst s1.
  destruct (Z.ltb_spec (Z.of_nat (length (trj s)) - 1) (Z.of_nat (S (inc s)))).
  - split; [lia|]. intros _. now destruct (newtrj s).
  - split; [now intros _|lia].
Qed.

End ViewerFacts.

Section GameFacts.
Context {F : Type} {N : Num F}.
Variable M : MathLib F.
Variable Noise1D : F -> F.
Variables picW picH : F.
Import game.

Lemma fold_left_keep {A B : Type} (f : A -> B) (keep : B -> bool) (l : list A) :
  forall acc,
  fold_left (fun acc a => if keep (f a) then acc ++ [f a] else acc) l acc =
  acc ++ filter keep (map f l).
Proof.
  induction l as [|a l IH]; intros acc; cbn [fold_left map filter].
  - now rewrite app_nil_r.
  - rewrite IH. destruct (keep (f a)); [|reflexivity].
    now rewrite <- app_assoc.
Qed.

Lemma updateProjs_filter dt projs :
  updateProjs M dt projs =
  filter inFlight
    (map (fun p => cannon.updateTrajectory M p (dt * speedFactor)%num) projs).
Proof.
  unfold updateProjs.
  exact (fold_left_keep
           (fun p => cannon.updateTrajectory M p (dt * speedFactor)%num)
           inFlight projs []).
Qed.

Lemma updateTargs_filter projs targs :
  updateTargs Noise1D projs targs =
  filter (fun t => negb (cannon.detectCollision t projs))
    (map (moveTarg Noise1D) targs).
Proof.
  unfold updateTargs.
  enough (H : forall acc,
    fold_left
      (fun keepTarg targ =>
         let targ := moveTarg Noise1D targ in
         let hit := cannon.detectCollision targ projs in
         if Bool.eqb hit false then keepTarg ++ [targ] else keepTarg)
      targs acc =
    acc ++ filter (fun t => negb (cannon.detectCollision t projs))
             (map (moveTarg Noise1D) targs)) by apply (H []).
  induction targs as [|t targs IH]; intros acc; cbn [fold_left map filter].
  - now rewrite app_nil_r.
  - rewrite IH.
    destruct (cannon.detectCollision (moveTarg Noise1D t) projs);
      cbn [Bool.eqb negb]; [reflexivity|].
    now rewrite <- app_assoc.
Qed.

Lemma frame_one_target i w :
  length (Targs w) <= 1 -> length (Targs (frame M Noise1D picW picH i w)) <= 1.
Proof.
  intros H. unfold frame. cbn [Targs].
  rewrite updateTargs_filter.
  etransitivity; [apply filter_length_le|].
  rewrite length_map.
  destruct (Targs w) as [|t [|t' l]]; cbn in *; lia.
Qed.

Lemma run_app inputs i :
  run M Noise1D picW picH (inputs ++ [i]) =
  frame M Noise1D picW picH i (run M Noise1D picW picH inputs).
Proof. unfold run. now rewrite fold_left_app. Qed.

(** X13.  There is never more than one target.  Every frame tests exactly
    one, a new one at the left edge when the last was hit, and leaves it in
    place unless a projectile in flight hits it. *)
Theorem game_one_target inputs :
  let w := run M Noise1D picW picH inputs in
  length (Targs w) <= 1 /\
  forall i, exists t,
    createTargs picW picH (Targs w) = [t] /\
    Targs (frame M Noise1D picW picH i w) =
      if cannon.detectCollision (moveTarg Noise1D t)
           (updateProjs M (elapsed i) (Projs w))
      then [] else [moveTarg Noise1D t].
Proof.
  intros w.
  assert (Hw : length (Targs w) <= 1).
  { subst w. induction inputs as [|i inputs IH] using rev_ind.
    - cbn. lia.
    - rewrite run_app. now apply frame_one_target. }
  split; [exact Hw|]. intros i.
  assert (Ht : exists t, createTargs picW picH (Targs w) = [t]).
  { destruct (Targs w) as [|t [|t' l]]; cbn in Hw; try lia;
      cbn [createTargs]; eauto. }
  destruct Ht as (t & Ht). exists t. split; [exact Ht|].
  unfold frame. cbn [Targs]. rewrite updateTargs_filter, Ht.
  cbn [map filter].
  now destruct (cannon.detectCollision (moveTarg Noise1D t) _).
Qed.

(** X12.  Between two frames every projectile is above the ground, or has
    just been fired and sits at the muzzle; the projectiles a target is
    tested against are all above the ground. *)
Theorem game_projectiles_in_flight inputs :
  Forall (fun p => inFlight p = true \/ justFired M p)
    (Projs (run M Noise1D picW picH inputs)) /\
  forall dt projs, Forall (fun p => inFlight p = true) (updateProjs M dt projs).
Proof.
  assert (Hup : forall dt projs,
            Forall (fun p => inFlight p = true) (updateProjs M dt projs)).
  { intros dt projs. rewrite updateProjs_filter. apply Forall_forall.
    intros p Hp. now apply filter_In in Hp. }
  split; [|exact Hup].
  destruct inputs as [|i inputs _] using rev_ind; [constructor|].
  rewrite run_app. unfold frame at 1. cbn [Projs].
  set (w := run M Noise1D picW picH inputs).
  assert (H : Forall (fun p => inFlight p = true \/ justFired M p)
                (updateProjs M (elapsed i) (Projs w))).
  { eapply Forall_impl; [|apply Hup]. intros p Hp. now left. }
  destruct (MouseButtonLeft i); [|exact H].
  apply Forall_app. split; [exact H|].
  constructor; [|constructor]. right. unfold justFired. eauto.
Qed.

End GameFacts.

Section CollisionFacts.
Context {F : Type} {N : Num F}.

Lemma detectCollision_existsb (t : cannon.Target F) ps :
  cannon.detectCollision t ps =
  existsb (fun prj =>
             negb (pixel.Rect_eqb
                     (pixel.Intersect (pixel.Norm (cannon.trect t))
                        (pixel.Norm (cannon.rect prj)))
                     (pixel.R (lit 0) (lit 0) (lit 0) (lit 0)))) ps.
Proof.
  unfold cannon.detectCollision.
  now rewrite Float64Claims.fold_left_flag.
Qed.

(** X9.  [detectCollision] asks whether some projectile hits: with no
    projectile the answer is no; for two lists put together it is the
    disjunction of the answers for each; the order of the projectiles does
    not matter. *)
Theorem detectCollision_any (t : cannon.Target F) :
  cannon.detectCollision t [] = false /\
  (forall ps qs,
     cannon.detectCollision t (ps ++ qs) =
     cannon.detectCollision t ps || cannon.detectCollision t qs) /\
  (forall ps qs, Permutation ps qs ->
     cannon.detectCollision t ps = cannon.detectCollision t qs).
Proof.
  split; [reflexivity|]. split.
  - intros ps qs. rewrite !detectCollision_existsb. apply existsb_app.
  - intros ps qs Hp. rewrite !detectCollision_existsb.
    apply eq_true_iff_eq. rewrite !existsb_exists.
    split; intros (p & Hin & H); exists p; split; auto.
    + now apply (Permutation_in _ Hp).
    + now apply (Permutation_in _ (Permutation_sym Hp)).
Qed.

End CollisionFacts.

Section NormalizeFacts.
Context {F : Type} {N : Num F}.
Import trajectory.

(** X6.  The loop that normalizes a slice runs from the last index down to
    0, so the altitude of the first point is still the original one when
    every other point has had it subtracted, and is subtracted from itself
    last.  The slice keeps its length, and no index is out of range, also
    when the slice is empty. *)
Theorem normalize_subtracts_first_altitude (h : list (TrajectoryPoint F)) :
  normalizeLoop (length h) h =
  Returned match h with
           | [] => []
           | p0 :: _ => map (rebase (altitude p0)) h
           end.
Proof.
  destruct h as [|p0 h]; [reflexivity|].
  now rewrite (normalizeLoop_all p0 (p0 :: h)).
Qed.

End NormalizeFacts.

Section PlayerFacts.
Variable A : Type.
Import bbgui.

Lemma frames_inc (history : list A) n :
  history <> [] ->
  frames history n =
  Returned (match n with O => 0 | S n' => S (n' mod length history) end).
Proof.
  intros Hne.
  assert (Hlen : 0 < length history) by (destruct history; [congruence|cbn; lia]).
  induction n as [|n IH]; [reflexivity|].
  cbn [frames]. rewrite IH. cbn [bind]. unfold frame.
  destruct n as [|n].
  - rewrite Nat.Div0.mod_0_l.
    destruct (Z.ltb_spec (Z.of_nat (length history) - 1) (Z.of_nat 0)); [lia|].
    destruct (nth_error history 0) eqn:E; [reflexivity|].
    apply nth_error_None in E. lia.
  - pose proof (Nat.mod_upper_bound n (length history) ltac:(lia)) as Hm.
    destruct (Z.ltb_spec (Z.of_nat (length history) - 1)
                (Z.of_nat (S (n mod length history)))) as [Hw|Hw].
    + assert (E : S (n mod length history) = length history) by lia.
      destruct (nth_error history 0) eqn:E0.
      2:{ apply nth_error_None in E0. lia. }
      cbn [bind snd]. f_equal. f_equal.
      apply Nat.mod_unique with (q := S (n / length history)).
      * lia.
      * pose proof (Nat.div_mod_eq n (length history)). nia.
    + destruct (nth_error history (S (n mod length history))) eqn:E0.
      2:{ apply nth_error_None in E0. lia. }
      cbn [bind snd]. f_equal. f_equal.
      apply Nat.mod_unique with (q := n / length history).
      * lia.
      * pose proof (Nat.div_mod_eq n (length history)). nia.
Qed.

(** X19.  The baseball viewer plays its slice round and round: round [n]
    draws point [n mod len(history)], and no round panics -- unless the
    slice is empty, and then the first round does. *)
Theorem player_cycles :
  (forall n, drawn (@nil A) n = Panicked) /\
  (forall (history : list A) n, history <> [] ->
     exists p, nth_error history (n mod length history) = Some p /\
               drawn history n = Returned p).
Proof.
  split.
  - intros n. unfold drawn. induction n as [|n IH]; [reflexivity|].
    cbn [frames]. destruct (frames [] n) as [inc| |]; cbn [bind] in *.
    + unfold frame in *. cbn [length Z.of_nat] in *.
      destruct (_ <? _)%Z; cbn [nth_error bind] in *;
        destruct inc; cbn in *; try reflexivity; discriminate.
    + reflexivity.
    + discriminate.
  - intros history n Hne.
    assert (Hlen : 0 < length history) by (destruct history; [congruence|cbn; lia]).
    pose proof (Nat.mod_upper_bound n (length history) ltac:(lia)) as Hm.
    destruct (nth_error history (n mod length history)) as [p|] eqn:E.
    2:{ apply nth_error_None in E. lia. }
    exists p. split; [reflexivity|].
    unfold drawn. rewrite (frames_inc history n Hne). cbn [bind]. unfold frame.
    destruct n as [|n].
    + rewrite Nat.Div0.mod_0_l in E.
      destruct (Z.ltb_spec (Z.of_nat (length history) - 1) (Z.of_nat 0)); [lia|].
      now rewrite E.
    + pose proof (Nat.mod_upper_bound n (length history) ltac:(lia)) as Hm'.
      destruct (Z.ltb_spec (Z.of_nat (length history) - 1)
                  (Z.of_nat (S (n mod length history)))) as [Hw|Hw].
      * assert (E' : (S n) mod length history = 0).
        { symmetry. apply Nat.mod_unique with (q := S (n / length history)).
          - lia.
          - pose proof (Nat.div_mod_eq n (length history)). nia. }
        rewrite E' in E. now rewrite E.
      * assert (E' : (S n) mod length history = S (n mod length history)).
        { symmetry. apply Nat.mod_unique with (q := n / length history).
          - lia.
          - pose proof (Nat.div_mod_eq n (length history)). nia. }
        rewrite E' in E. now rewrite E.
Qed.

End PlayerFacts.

(** ** Exact arithmetic: the atmosphere, the drag, the last point and the
    times of a run *)

Module RealFacts.
Import trajectory RealClaims air.
Local Open Scope R_scope.

Lemma leb_true (x y : R) : leb x y = true <-> x <= y.
Proof.
  real. unfold Real.le_b. destruct (Rle_dec x y); split; auto; discriminate.
Qed.

Lemma leb_false (x y : R) : leb x y = false <-> y < x.
Proof.
  real. unfold Real.le_b.
  destruct (Rle_dec x y); split; auto; try discriminate; lra.
Qed.

Lemma ltb_true (x y : R) : ltb x y = true <-> x < y.
Proof. exact (gtb_true y x). Qed.

Lemma ltb_false (x y : R) : ltb x y = false <-> y <= x.
Proof. exact (gtb_false y x). Qed.

Section Atmosphere.
Variable M : MathLib R.

Lemma temperature_eq alt :
  let h := alt * 6369 / (alt + 6369) in
  temperature M alt = Rmax (1 - 6.5 / 288.15 * h) (216.65 / 288.15).
Proof.
  unfold temperature, simpleAtmosphere. cbv zeta. real.
  replace (Q2R 6369.0) with 6369 by (lits; lra).
  set (h := alt * 6369 / (alt + 6369)).
  destruct (Real.lt_b h (Q2R 11.0)) eqn:E; cbn [snd].
  - apply ltb_true in E. lits. rewrite Rmax_left; lra.
  - apply ltb_false in E. lits. rewrite Rmax_right; lra.
Qed.

(** X1.  The temperature ratio [simpleAtmosphere] returns, in exact
    arithmetic: it falls by 6.5/288.15 per kilometre of geopotential
    altitude and stays at 216.65/288.15 from 11 km on, the two pieces
    meeting there; it is never below that value, and never above 1 at or
    above sea level.  The density ratio times the temperature ratio is the
    pressure ratio. *)
Theorem atmosphere_temperature alt :
  let h := alt * 6369 / (alt + 6369) in
  temperature M alt = Rmax (1 - 6.5 / 288.15 * h) (216.65 / 288.15) /\
  216.65 / 288.15 <= temperature M alt /\
  (0 <= alt -> temperature M alt <= 1) /\
  density M alt * temperature M alt = pressure M alt.
Proof.
  intros h. pose proof (temperature_eq alt) as E. cbv zeta in E. fold h in E.
  split; [exact E|].
  assert (Hlo : 216.65 / 288.15 <= temperature M alt).
  { rewrite E. apply Rmax_r. }
  split; [exact Hlo|]. split.
  - intros Halt. rewrite E. apply Rmax_lub; [|lra].
    assert (0 <= h).
    { unfold h. apply Rmult_le_pos; [nra|].
      apply Rlt_le, Rinv_0_lt_compat. lra. }
    lra.
  - clear E Hlo. unfold density, pressure, temperature, simpleAtmosphere.
    cbv zeta.
    destruct (_ <? _)%num eqn:Eb; cbn [fst snd]; real;
      unfold Rdiv at 1; rewrite Rmult_assoc, Rinv_l, Rmult_1_r;
      try reflexivity.
    + apply ltb_true in Eb. revert Eb. real. lits. lra.
    + lits. lra.
Qed.

Lemma temperature_pos alt : 0 < temperature M alt.
Proof.
  pose proof (atmosphere_temperature alt) as (_ & H & _). lra.
Qed.

(** X2.  In exact arithmetic [viscosity] is positive at every positive
    temperature ratio, hence at every altitude: the Reynolds number in
    [accel] is never a quotient by 0. *)
Theorem viscosity_positive :
  (forall theta, 0 < theta -> 0 < viscosity theta) /\
  (forall alt, 0 < viscosity (temperature M alt)).
Proof.
  assert (H : forall theta, 0 < theta -> 0 < viscosity theta).
  { intros theta Ht. unfold viscosity. cbv zeta. real.
    set (temp := Q2R 288.15 * theta).
    assert (0 < temp) by (unfold temp; lits; nra).
    assert (0 < R_sqrt.sqrt (temp * temp * temp)).
    { apply sqrt_lt_R0.
      apply Rmult_lt_0_compat; [apply Rmult_lt_0_compat|]; assumption. }
    apply Rdiv_lt_0_compat; [|lits; lra].
    apply Rmult_lt_0_compat; [qnorm; lits; lra|assumption]. }
  split; [exact H|]. intros alt. apply H, temperature_pos.
Qed.

Lemma cdSphere_nonneg r :
  (forall x y, 0 < x -> 0 <= Pow M x y) -> 0 <= cdSphere M r.
Proof.
  intros Hpow. unfold cdSphere.
  destruct (r <=? lit 0)%num eqn:E0; [real; lits; lra|].
  apply leb_false in E0.
  assert (Hr : 0 < r) by (revert E0; real; lits; lra).
  destruct (r <=? lit 1.0)%num.
  { real. apply Rlt_le, Rdiv_lt_0_compat; [lits; lra|exact Hr]. }
  destruct (r <=? lit 400.0)%num.
  { real. apply Rmult_le_pos; [lits; lra|now apply Hpow]. }
  destruct (r <=? lit 3E5)%num; [real; lits; lra|].
  destruct (r <=? lit 2E6)%num; [|real; lits; lra].
  real. apply Rmult_le_pos; [qnorm; lits; lra|now apply Hpow].
Qed.

Lemma density_nonneg alt :
  (forall x y, 0 < x -> 0 <= Pow M x y) -> (forall x, 0 <= Exp M x) ->
  0 <= density M alt.
Proof.
  intros Hpow Hexp. pose proof (temperature_pos alt) as Ht.
  unfold density, temperature in *. unfold simpleAtmosphere in *.
  cbv zeta in *.
  destruct (_ <? _)%num; cbn [fst snd] in *; real.
  - apply Rmult_le_pos; [now apply Hpow|].
    apply Rlt_le, Rinv_0_lt_compat, Ht.
  - apply Rmult_le_pos; [|apply Rlt_le, Rinv_0_lt_compat, Ht].
    apply Rmult_le_pos; [lits; lra|apply Hexp].
Qed.

(** X3.  In exact arithmetic, with a [math] library that squares with
    [Pow x 2] and returns nothing negative for a positive base or from
    [Exp], the drag [accel] computes points against the velocity: the
    horizontal acceleration never has the sign of the horizontal velocity,
    and what the vertical acceleration adds to [-g] never has the sign of the
    vertical velocity.  The velocity must not be zero. *)
Theorem drag_opposes_velocity t (pos v : vec2 R) :
  (forall x, Pow M x (lit 2.0) = x * x) ->
  (forall x y, 0 < x -> 0 <= Pow M x y) ->
  (forall x, 0 <= Exp M x) ->
  fst v <> 0 \/ snd v <> 0 ->
  fst (accel M t pos v) * fst v <= 0 /\
  (snd (accel M t pos v) + g) * snd v <= 0.
Proof.
  intros Hsq Hpow Hexp Hv.
  pose proof (density_nonneg (lit 0.001 * snd pos)%num Hpow Hexp) as Hd.
  unfold density in Hd.
  unfold accel. cbv zeta. rewrite !Hsq.
  destruct (simpleAtmosphere M (lit 0.001 * snd pos)%num) as [[sigma delta] theta].
  cbn [fst snd] in *. real.
  set (vsq := Q2R 0.0 + fst v * fst v + snd v * snd v).
  set (vmag := R_sqrt.sqrt vsq).
  match goal with
  | |- context [cdSphere M ?r] =>
      pose proof (cdSphere_nonneg r Hpow) as Hcd; set (cd := cdSphere M r) in *
  end.
  assert (Hvsq : 0 < vsq).
  { unfold vsq. lits. destruct Hv; nra. }
  assert (Hvmag : 0 < vmag) by (now apply sqrt_lt_R0).
  assert (Hsref : 0 <= sref).
  { unfold sref, diam, ft2meters. real. pose proof PI_RGT_0. lits.
    apply Rmult_le_pos; [|nra]. apply Rmult_le_pos; nra. }
  set (D := cd * (Q2R 0.5 * (sigma * rhozero) * vsq) * sref).
  assert (HD : 0 <= D).
  { unfold D, rhozero. real.
    apply Rmult_le_pos; [|exact Hsref].
    apply Rmult_le_pos; [exact Hcd|].
    apply Rmult_le_pos; [|lra].
    apply Rmult_le_pos; [lits; lra|].
    apply Rmult_le_pos; [exact Hd|lits; lra]. }
  clearbody D vmag. unfold mass, g. real. lits.
  assert (Hq : 0 <= D / vmag).
  { apply Rmult_le_pos; [exact HD|apply Rlt_le, Rinv_0_lt_compat, Hvmag]. }
  assert (Hx : 0 <= D / vmag * (fst v * fst v))
    by (apply Rmult_le_pos; [exact Hq|nra]).
  assert (Hy : 0 <= D / vmag * (snd v * snd v))
    by (apply Rmult_le_pos; [exact Hq|nra]).
  split.
  - replace ((- D * (fst v / vmag) / (54 * / 10)
              - 98066 * / 10000 * (0 * / 10)) * fst v)
      with (- (D / vmag * (fst v * fst v) * (10 / 54))) by (field; lra).
    lra.
  - replace ((- D * (snd v / vmag) / (54 * / 10)
              - 98066 * / 10000 * (10 * / 10) + 98066 * / 10000) * snd v)
      with (- (D / vmag * (snd v * snd v) * (10 / 54))) by (field; lra).
    lra.
Qed.

End Atmosphere.
Section Runs.
Variable M : MathLib R.

(** X4.  In exact arithmetic, when the altitude of [a1] is above [alt] and
    that of [a2] is not, [correctFinalPosition] returns the point a fraction
    [f] of the way from [a1] to [a2], the same [0 < f <= 1] for every field,
    at altitude [alt] exactly; when [a2] is at [alt] already it is [a2]. *)
Theorem correction_between alt (a1 a2 : TrajectoryPoint R) :
  altitude a2 <= alt < altitude a1 ->
  exists f, 0 < f <= 1 /\
    correctFinalPosition alt a1 a2 =
    {| Time := Time a1 + f * (Time a2 - Time a1);
       Position := (fst (Position a1) + f * (fst (Position a2) - fst (Position a1)),
                    alt);
       Velocity := (fst (Velocity a1) + f * (fst (Velocity a2) - fst (Velocity a1)),
                    snd (Velocity a1) + f * (snd (Velocity a2) - snd (Velocity a1)));
       Acceleration :=
         (fst (Acceleration a1) + f * (fst (Acceleration a2) - fst (Acceleration a1)),
          snd (Acceleration a1) + f * (snd (Acceleration a2) - snd (Acceleration a1))) |} /\
    (altitude a2 = alt -> f = 1 /\ correctFinalPosition alt a1 a2 = a2).
Proof.
  unfold altitude. intros (H2 & H1).
  set (y1 := snd (Position a1)) in *. set (y2 := snd (Position a2)) in *.
  exists ((alt - y1) / (y2 - y1)).
  assert (Hf : 0 < (alt - y1) / (y2 - y1) <= 1).
  { replace ((alt - y1) / (y2 - y1)) with ((y1 - alt) / (y1 - y2))
      by (field; lra).
    split.
    - apply Rdiv_lt_0_compat; lra.
    - replace 1 with ((y1 - y2) / (y1 - y2)) by (field; lra).
      apply Rmult_le_compat_r; [|lra].
      apply Rlt_le, Rinv_0_lt_compat. lra. }
  split; [exact Hf|]. split.
  - unfold correctFinalPosition. cbv zeta. real. fold y1 y2.
    f_equal. f_equal. field. lra.
  - intros E.
    assert (E1 : (alt - y1) / (y2 - y1) = 1) by (rewrite E; field; lra).
    split; [exact E1|].
    unfold correctFinalPosition. cbv zeta. real. fold y1 y2. rewrite E1.
    subst y1 y2. clear.
    destruct a2 as [t2 [x2 y2] [vx2 vy2] [ax2 ay2]].
    cbn [Time Position Velocity Acceleration fst snd].
    f_equal; try f_equal; lra.
Qed.



End Runs.

(** X11.  In exact arithmetic [updateTarget] puts the centre of the
    rectangle on [newPos] and keeps its width, its height and [perlinx]. *)
Theorem updateTarget_centres (t : cannon.Target R) (newPos : pixel.Vec R) :
  let r := cannon.trect t in
  let r' := cannon.trect (cannon.updateTarget t newPos) in
  pixel.Center r' = newPos /\
  pixel.X (pixel.Max r') - pixel.X (pixel.Min r') =
    pixel.X (pixel.Max r) - pixel.X (pixel.Min r) /\
  pixel.Y (pixel.Max r') - pixel.Y (pixel.Min r') =
    pixel.Y (pixel.Max r) - pixel.Y (pixel.Min r) /\
  cannon.perlinx (cannon.updateTarget t newPos) = cannon.perlinx t.
Proof.
  destruct t as [x [[a a'] [b b']]], newPos as [u u'].
  cbv zeta. unfold cannon.updateTarget, pixel.Center, pixel.Lerp, pixel.Moved,
    pixel.Add, pixel.Scaled, pixel.V.
  cbn [cannon.trect cannon.perlinx pixel.X pixel.Y pixel.Min pixel.Max].
  real. lits. split; [f_equal; lra|]. repeat split; lra.
Qed.

Section Calc.
Variable M : MathLib R.


End Calc.

(** *** The math libraries of the samples *)

Lemma ideal_square x : Pow RealSamples.ideal x (lit 2.0) = x * x.
Proof.
  cbn [Pow RealSamples.ideal]. real.
  destruct (Req_dec_T (Q2R 2.0) 2) as [_|H]; [reflexivity|].
  exfalso. apply H. lits. lra.
Qed.

Lemma ideal_pow_nonneg x y : 0 < x -> 0 <= Pow RealSamples.ideal x y.
Proof.
  intros Hx. cbn [Pow RealSamples.ideal].
  destruct (Req_dec_T y 2); [nra|].
  destruct (Rlt_dec 0 x); [|lra].
  unfold Rpower. apply Rlt_le, exp_pos.
Qed.

Lemma ideal_exp_nonneg x : 0 <= Exp RealSamples.ideal x.
Proof. apply Rlt_le, exp_pos. Qed.





(** *** The statements on the samples *)


(** X3 with the powers and the exponential of analysis, at 100 m and a
    velocity of (3, 4). *)
Lemma drag_opposes_velocity_witness :
  (forall x, Pow RealSamples.ideal x (lit 2.0) = x * x) /\
  (forall x y, 0 < x -> 0 <= Pow RealSamples.ideal x y) /\
  (forall x, 0 <= Exp RealSamples.ideal x) /\
  (fst (3, 4) <> 0 \/ snd (3, 4) <> 0) /\
  fst (accel RealSamples.ideal 0 (0, 100) (3, 4)) * fst (3, 4) <= 0 /\
  (snd (accel RealSamples.ideal 0 (0, 100) (3, 4)) + g) * snd (3, 4) <= 0.
Proof.
  assert (Hv : fst (3, 4) <> 0 \/ snd (3, 4) <> 0) by (left; cbn; lra).
  split; [exact ideal_square|]. split; [exact ideal_pow_nonneg|].
  split; [exact ideal_exp_nonneg|]. split; [exact Hv|].
  exact (drag_opposes_velocity RealSamples.ideal 0 (0, 100) (3, 4)
           ideal_square ideal_pow_nonneg ideal_exp_nonneg Hv).
Defined.



(** X4 on the last two points of the shot in the vacuum. *)
Lemma correction_between_witness :
  altitude (orbit Real.vacuum (lit 1) Real.vacuumSeed 2) <= lit 0
    < altitude (orbit Real.vacuum (lit 1) Real.vacuumSeed 1) /\
  exists f, 0 < f <= 1 /\
    Time (correctFinalPosition (lit 0)
            (orbit Real.vacuum (lit 1) Real.vacuumSeed 1)
            (orbit Real.vacuum (lit 1) Real.vacuumSeed 2)) =
    Time (orbit Real.vacuum (lit 1) Real.vacuumSeed 1)
      + f * (Time (orbit Real.vacuum (lit 1) Real.vacuumSeed 2)
             - Time (orbit Real.vacuum (lit 1) Real.vacuumSeed 1)).
Proof.
  assert (H : altitude (orbit Real.vacuum (lit 1) Real.vacuumSeed 2) <= lit 0
              < altitude (orbit Real.vacuum (lit 1) Real.vacuumSeed 1)).
  { split; [apply gtb_false, vacuum_aloft_2|apply gtb_true, vacuum_aloft_1]. }
  split; [exact H|].
  destruct (correction_between (lit 0) _ _ H) as (f & Hf & E & _).
  exists f. split; [exact Hf|]. now rewrite E.
Defined.

End RealFacts.

(** ** binary64: rectangles, points that are not numbers, and the sweep
    of a target *)

Module Float64Extras.
Import trajectory Float64 Float64Facts Scenes.
Local Open Scope num_scope.

Implicit Types x y z : float.

Lemma SFmax_comm a b : SFmax a b = SFmax b a.
Proof. sf_cases a; sf_cases b; mm_solve. Qed.

Lemma SFmin_comm a b : SFmin a b = SFmin b a.
Proof. sf_cases a; sf_cases b; mm_solve. Qed.

Lemma max_comm x y : fmax x y = fmax y x.
Proof. apply Prim2SF_inj. now rewrite !Prim2SF_max, SFmax_comm. Qed.

Lemma min_comm x y : fmin x y = fmin y x.
Proof. apply Prim2SF_inj. now rewrite !Prim2SF_min, SFmin_comm. Qed.

Lemma SFmin_min_max a b : SFmin (SFmin a b) (SFmax a b) = SFmin a b.
Proof. sf_cases a; sf_cases b; mm_solve. Qed.

Lemma SFmax_min_max a b : SFmax (SFmin a b) (SFmax a b) = SFmax a b.
Proof. sf_cases a; sf_cases b; mm_solve. Qed.

Lemma min_min_max x y : fmin (fmin x y) (fmax x y) = fmin x y.
Proof.
  apply Prim2SF_inj.
  repeat (rewrite Prim2SF_min || rewrite Prim2SF_max). apply SFmin_min_max.
Qed.

Lemma max_min_max x y : fmax (fmin x y) (fmax x y) = fmax x y.
Proof.
  apply Prim2SF_inj.
  repeat (rewrite Prim2SF_min || rewrite Prim2SF_max). apply SFmax_min_max.
Qed.

(** *** Rectangles *)

Lemma Intersect_comm (r s : pixel.Rect float) :
  pixel.Intersect r s = pixel.Intersect s r.
Proof.
  unfold pixel.Intersect.
  rewrite (max_comm (pixel.X (pixel.Min r))), (max_comm (pixel.Y (pixel.Min r))),
    (min_comm (pixel.X (pixel.Max r))), (min_comm (pixel.Y (pixel.Max r))).
  reflexivity.
Qed.

(** X10.  [detectCollision] reads a rectangle through [Norm] only, and
    [Norm] does not mind which of two opposite corners is called [Min]: a
    rectangle with the first coordinates of its corners exchanged, or the
    second ones, or already normalized, is the same rectangle to it.  Target
    and projectile can change places. *)
Theorem collision_reads_normal_form :
  (forall r : pixel.Rect float,
     pixel.Norm (flipX r) = pixel.Norm r /\
     pixel.Norm (flipY r) = pixel.Norm r /\
     pixel.Norm (pixel.Norm r) = pixel.Norm r) /\
  (forall (t t' : cannon.Target float) (ps ps' : list (cannon.Projectile float)),
     pixel.Norm (cannon.trect t) = pixel.Norm (cannon.trect t') ->
     Forall2 (fun p p' =>
                pixel.Norm (cannon.rect p) = pixel.Norm (cannon.rect p')) ps ps' ->
     cannon.detectCollision t ps = cannon.detectCollision t' ps') /\
  (forall (t : cannon.Target float) (p : cannon.Projectile float),
     cannon.detectCollision t [p] =
     cannon.detectCollision
       {| cannon.perlinx := cannon.perlinx t; cannon.trect := cannon.rect p |}
       [{| cannon.trj := cannon.trj p; cannon.rect := cannon.trect t |}]).
Proof.
  split; [|split].
  - intros [[a a'] [b b']]. unfold flipX, flipY, pixel.Norm, pixel.R, pixel.V.
    cbn [pixel.X pixel.Y pixel.Min pixel.Max].
    rewrite (max_comm b a), (min_comm b a), (max_comm b' a'), (min_comm b' a').
    rewrite !min_min_max, !max_min_max. repeat split; reflexivity.
  - intros t t' ps ps' Ht Hps. unfold cannon.detectCollision. rewrite Ht.
    generalize false.
    induction Hps as [|p p' ps ps' Hp _ IH]; intros b; cbn [fold_left].
    + reflexivity.
    + rewrite Hp. apply IH.
  - intros t p. unfold cannon.detectCollision. cbn [fold_left cannon.trect cannon.rect].
    now rewrite Intersect_comm.
Qed.

(** *** A point that is not a number *)

Section Degenerate.
Variable M : MathLib float.

(** X5.  When the two points [correctFinalPosition] is given are both at
    the altitude asked for -- a step of length 0 leaves them there -- the
    fraction is 0/0, and every field of the point returned is NaN. *)
Theorem correction_of_level_points (alt : float) (a1 a2 : TrajectoryPoint float) :
  isZero (alt - altitude a1)%num -> isZero (altitude a2 - altitude a1)%num ->
  Time (correctFinalPosition alt a1 a2) = nan /\
  Position (correctFinalPosition alt a1 a2) = nan2 /\
  Velocity (correctFinalPosition alt a1 a2) = nan2 /\
  Acceleration (correctFinalPosition alt a1 a2) = nan2.
Proof.
  unfold altitude. intros H1 H2.
  unfold correctFinalPosition. cbv zeta.
  rewrite (zero_div_zero _ _ H1 H2).
  cbn [Time Position Velocity Acceleration]. unfold nan2.
  autorewrite with nan. repeat split; reflexivity.
Qed.

Lemma update_at_rest (p : cannon.Projectile float) (dt : float) :
  (forall z, isZero z -> Pow M z (lit 2.0) = lit 0) ->
  isZero (fst (Velocity (cannon.trj p))) ->
  isZero (snd (Velocity (cannon.trj p))) ->
  game.inFlight (cannon.updateTrajectory M p dt) = false.
Proof.
  intros Hpow H0 H1. unfold game.inFlight, cannon.updateTrajectory.
  cbn [cannon.trj]. unfold cannon.UpdateRK4.
  destruct (kutta_nan M (cannon.trj p) dt) as (-> & _).
  { now apply accel_zero_velocity. }
  cbn [snd nan2]. apply ltb_nan_r.
Qed.

(** X14.  A projectile with velocity zero does not survive the frame: its
    position is NaN after the step, the test [Position[1] > 0.0] fails, and
    the list of projectiles goes on without it -- before any target is
    tested against it. *)
Theorem projectile_at_rest_is_dropped (p : cannon.Projectile float)
    (dt : float) (before after : list (cannon.Projectile float)) :
  (forall z, isZero z -> Pow M z (lit 2.0) = lit 0) ->
  isZero (fst (Velocity (cannon.trj p))) ->
  isZero (snd (Velocity (cannon.trj p))) ->
  game.updateProjs M dt (before ++ p :: after) =
  game.updateProjs M dt (before ++ after).
Proof.
  intros Hpow H0 H1. rewrite !updateProjs_filter, !map_app, !filter_app.
  cbn [map filter]. now rewrite update_at_rest.
Qed.

End Degenerate.

(** *** The sweep of a target *)

Lemma sweep_period :
  Nat.iter 171 game.advancePerlin (game.leftEdge : float) = game.leftEdge.
Proof. vm_compute. reflexivity. Qed.

Lemma sweep_periods q x :
  Nat.iter 171 game.advancePerlin x = x ->
  Nat.iter (q * 171) game.advancePerlin x = x.
Proof.
  intros H. induction q as [|q IH]; [reflexivity|].
  cbn [Nat.mul]. rewrite Nat.iter_add, IH. exact H.
Qed.

Lemma sweep_first r : r < 171 -> sweepAt r.
Proof.
  intros Hr.
  do 171 (destruct r as [|r]; [vm_compute; repeat split; reflexivity|]).
  lia.
Qed.

(** X15.  A target sweeps the screen from the left edge to the right one in
    steps of 6 and starts again: after [n] frames it is at
    [-512 + 6 (n mod 171)], never left of -512 nor right of 512.  The
    additions are exact in binary64. *)
Theorem target_sweep (n : nat) :
  (forall (Noise1D : float -> float) (t : cannon.Target float),
     cannon.perlinx (Nat.iter n (game.moveTarg Noise1D) t) =
     Nat.iter n game.advancePerlin (cannon.perlinx t)) /\
  Nat.iter n game.advancePerlin (game.leftEdge : float) =
    int (-512 + 6 * Z.of_nat (n mod 171)) /\
  (int (-512) <=? Nat.iter n game.advancePerlin (game.leftEdge : float)) = true /\
  (Nat.iter n game.advancePerlin (game.leftEdge : float) <=? int 512) = true.
Proof.
  split.
  - intros Noise1D t. induction n as [|n IH]; [reflexivity|].
    rewrite !Nat.iter_succ, <- IH. reflexivity.
  - pose proof (Nat.div_mod_eq n 171) as E.
    assert (Hr : n mod 171 < 171) by (apply Nat.mod_upper_bound; lia).
    remember (n mod 171) as r eqn:Er. remember (n / 171)%nat as q eqn:Eq.
    clear Er Eq. subst n.
    rewrite Nat.add_comm, Nat.iter_add, (Nat.mul_comm 171),
      (sweep_periods q _ sweep_period).
    exact (sweep_first r Hr).
Qed.

(** *** The statements on the samples *)

(** The viewer left alone plays its 129 points and starts again. *)
Lemma viewer_plays :
  viewer.start RefMath.refMath 1000 = Returned (playing 0) /\
  viewer.frames RefMath.refMath 1000 (repeat noKeys 128) (playing 0) =
    Returned (playing 128) /\
  viewer.frame RefMath.refMath 1000 noKeys (playing 128) = Returned (playing 0).
Proof. repeat split; vm_compute; reflexivity. Qed.

(** X17 on the frame that draws the last point. *)
Lemma viewer_swaps_at_wrap_witness :
  viewer.frame RefMath.refMath 1000 noKeys (playing 128) = Returned (playing 0) /\
  (S (viewer.inc (playing 128)) < length (viewer.trj (playing 128)) ->
   viewer.trj (playing 0) = viewer.trj (playing 128) /\
   viewer.inc (playing 0) = S (viewer.inc (playing 128))) /\
  (S (viewer.inc (playing 128)) = length (viewer.trj (playing 128)) ->
   viewer.inc (playing 0) = 0 /\
   viewer.trj (playing 0) =
     match viewer.newtrj (playing 128) with
     | Some t => t
     | None => viewer.trj (playing 128)
     end).
Proof.
  assert (H : viewer.frame RefMath.refMath 1000 noKeys (playing 128) =
              Returned (playing 0)) by (vm_compute; reflexivity).
  split; [exact H|].
  exact (viewer_swaps_at_wrap RefMath.refMath 1000 noKeys (playing 128)
           (playing 0) H).
Defined.

(** X14 on a cannonball fired at speed 0 behind one in flight. *)
Lemma projectile_at_rest_is_dropped_witness :
  (forall z, isZero z -> Pow RefMath.refMath z (lit 2.0) = lit 0) /\
  isZero (fst (Velocity (cannon.trj dud))) /\
  isZero (snd (Velocity (cannon.trj dud))) /\
  game.updateProjs RefMath.refMath (lit 0.016) ([Samples.upward] ++ dud :: []) =
  game.updateProjs RefMath.refMath (lit 0.016) ([Samples.upward] ++ []).
Proof.
  assert (H0 : isZero (fst (Velocity (cannon.trj dud))))
    by (vm_compute; auto).
  assert (H1 : isZero (snd (Velocity (cannon.trj dud))))
    by (vm_compute; auto).
  split; [exact Float64Runs.refMath_pow_zero|]. split; [exact H0|]. split; [exact H1|].
  exact (projectile_at_rest_is_dropped RefMath.refMath dud (lit 0.016)
           [Samples.upward] [] Float64Runs.refMath_pow_zero H0 H1).
Defined.

(** X5 on the first point of a run and the point a step of 0 s makes of
    it. *)
Lemma correction_of_level_points_witness :
  isZero (lit 10 - altitude onTheSpot)%num /\
  isZero (altitude (baseballKutta RefMath.refMath onTheSpot (lit 0))
          - altitude onTheSpot)%num /\
  Time (correctFinalPosition (lit 10) onTheSpot
          (baseballKutta RefMath.refMath onTheSpot (lit 0))) = nan /\
  Position (correctFinalPosition (lit 10) onTheSpot
          (baseballKutta RefMath.refMath onTheSpot (lit 0))) = nan2 /\
  Velocity (correctFinalPosition (lit 10) onTheSpot
          (baseballKutta RefMath.refMath onTheSpot (lit 0))) = nan2 /\
  Acceleration (correctFinalPosition (lit 10) onTheSpot
          (baseballKutta RefMath.refMath onTheSpot (lit 0))) = nan2.
Proof.
  assert (H1 : isZero (lit 10 - altitude onTheSpot)%num)
    by (vm_compute; auto).
  assert (H2 : isZero (altitude (baseballKutta RefMath.refMath onTheSpot (lit 0))
                       - altitude onTheSpot)%num)
    by (vm_compute; auto).
  split; [exact H1|]. split; [exact H2|].
  exact (correction_of_level_points (lit 10) onTheSpot
           (baseballKutta RefMath.refMath onTheSpot (lit 0)) H1 H2).
Defined.

(** A shot and two idle frames: one cannonball in flight, one target. *)
Lemma game_plays :
  let w := game.run RefMath.refMath (fun x => x) (lit 100) (lit 120)
             [shoot; idle; idle] in
  length (game.Projs w) = 1 /\ length (game.Targs w) = 1.
Proof. vm_compute. split; reflexivity. Qed.

End Float64Extras.
